(** * Stream process supervisor (streamingService.js): model and properties

    The supervisor keeps six module-level maps and one set, keyed by stream
    id, spawns one encoder process per start request, and reacts to process
    exits by scheduling restarts through [setTimeout].  This development
    embeds those handlers as state transformers over a [World] that holds
    the module state together with the collaborators the handlers talk to
    (stream and video tables, the disk, the spawned processes, the timer
    queue, the termination scheduler).

    Conventions:
    - time is an integer number of milliseconds ([new Date()] reads the
      [clock] field, which the environment advances between handlers);
    - positions are whole seconds;
    - an optional JavaScript argument ([resumePosition = null]) is an
      [option Z]; truthiness is spelled out by [truthy];
    - each asynchronous handler runs to completion before the next event. *)

From Stdlib Require Import ZArith QArith Qminmax Ascii String List Lia.
From stdpp Require Import base gmap strings list fin_maps pretty.

Local Open Scope string_scope.
Local Open Scope list_scope.
Local Open Scope Z_scope.

(** ** Constants of the module *)

Definition MAX_RETRY_ATTEMPTS : Z := 3.
Definition MAX_LOG_LINES : nat := 100.

(** ** Data *)

(** The options record handed to [ffmpegConfig.buildFFmpegArgs]; the argument
    list itself is a pure function of it and of the two paths. *)
Record Options := mkOptions {
  opt_videoPath : string;
  opt_resumePosition : Z;
  opt_loopVideo : bool;
  opt_useAdvancedSettings : bool
}.

(** Log messages: one constructor per template string of the source. *)
Inductive Message :=
| MsgBuiltArgs (o : Options)
| MsgStarting (o : Options)
| MsgResuming (pos : Z)
| MsgSetBase (pos : Z)
| MsgInitBase
| MsgOutput (text : string)
| MsgFFmpeg (text : string)
| MsgNetworkError (text : string)
| MsgEnded (code : option Z) (signal : option string)
| MsgProcessError (text : string)
| MsgFailedToStart (err : string)
| MsgCrashed (reason : string) (attempt : Z)
| MsgMaxRetries
| MsgExitedWithCode (code : Z)
| MsgScheduling (delay : Q) (pos : Z)
| MsgAttempting (attempt : Z)
| MsgRestartFailed (err : string)
| MsgRestartError (err : string)
| MsgRestartOk (pos : Z)
| MsgCannotRestart
| MsgNoStartTime (base : Z)
| MsgCalculated (base elapsed pos : Z)
| MsgStopping
| MsgHealthRecovering
| MsgHealthOk
| MsgHealthFailed (err : string).

Record LogEntry := mkLog { timestamp : Z; message : Message }.

(** Modelled from the spec: the stream configuration store ([models/Stream]
    is not part of the sources).  [findById] returns the row or nothing and
    [updateStatus] overwrites the status column of an existing row. *)
Record StreamRow := mkStream {
  video_id : string;
  user_id : string;
  status : string;
  duration : option Z;
  loop_video : bool;
  use_advanced_settings : bool
}.

(** Modelled from the spec: the video record store ([models/Video]). *)
Record VideoRow := mkVideo { filepath : string }.

(** A spawned encoder process.  [p_signals] collects what [kill] sent. *)
Record Proc := mkProc {
  p_stream : string;
  p_options : Options;
  p_running : bool;
  p_signals : list string
}.

(** The three closures handed to [setTimeout]. *)
Inductive Callback :=
| CrashRestart (streamId : string) (resumePosition : Z)
| ErrorRestart (streamId : string) (resumePosition : Z) (retryCount : Z)
| HealthRestart (streamId : string) (resumePosition : Z).

Record Timer := mkTimer { t_delay : Q; t_callback : Callback }.

(** Calls received by the termination scheduler. *)
Inductive SchedCall :=
| ScheduleTermination (streamId : string) (minutes : Z)
| StreamStopped (streamId : string).

Record World := mkWorld {
  (* module state of the service *)
  activeStreams : gmap string nat;
  streamLogs : gmap string (list LogEntry);
  streamRetryCount : gmap string Z;
  streamStartTimes : gmap string Z;
  streamVideoPositions : gmap string Z;
  streamBasePositions : gmap string Z;
  manuallyStoppingStreams : gset string;
  (* collaborators *)
  streams : gmap string StreamRow;
  videos : gmap string VideoRow;
  disk : gset string;
  procs : list Proc;
  timers : list Timer;
  schedulerCalls : list SchedCall;
  clock : Z
}.

Definition set_activeStreams (f : gmap string nat → gmap string nat) (w : World) : World :=
  mkWorld (f (activeStreams w)) (streamLogs w) (streamRetryCount w) (streamStartTimes w)
    (streamVideoPositions w) (streamBasePositions w) (manuallyStoppingStreams w)
    (streams w) (videos w) (disk w) (procs w) (timers w) (schedulerCalls w) (clock w).

Definition set_streamLogs (f : gmap string (list LogEntry) → gmap string (list LogEntry))
    (w : World) : World :=
  mkWorld (activeStreams w) (f (streamLogs w)) (streamRetryCount w) (streamStartTimes w)
    (streamVideoPositions w) (streamBasePositions w) (manuallyStoppingStreams w)
    (streams w) (videos w) (disk w) (procs w) (timers w) (schedulerCalls w) (clock w).

Definition set_streamRetryCount (f : gmap string Z → gmap string Z) (w : World) : World :=
  mkWorld (activeStreams w) (streamLogs w) (f (streamRetryCount w)) (streamStartTimes w)
    (streamVideoPositions w) (streamBasePositions w) (manuallyStoppingStreams w)
    (streams w) (videos w) (disk w) (procs w) (timers w) (schedulerCalls w) (clock w).

Definition set_streamStartTimes (f : gmap string Z → gmap string Z) (w : World) : World :=
  mkWorld (activeStreams w) (streamLogs w) (streamRetryCount w) (f (streamStartTimes w))
    (streamVideoPositions w) (streamBasePositions w) (manuallyStoppingStreams w)
    (streams w) (videos w) (disk w) (procs w) (timers w) (schedulerCalls w) (clock w).

Definition set_streamVideoPositions (f : gmap string Z → gmap string Z) (w : World) : World :=
  mkWorld (activeStreams w) (streamLogs w) (streamRetryCount w) (streamStartTimes w)
    (f (streamVideoPositions w)) (streamBasePositions w) (manuallyStoppingStreams w)
    (streams w) (videos w) (disk w) (procs w) (timers w) (schedulerCalls w) (clock w).

Definition set_streamBasePositions (f : gmap string Z → gmap string Z) (w : World) : World :=
  mkWorld (activeStreams w) (streamLogs w) (streamRetryCount w) (streamStartTimes w)
    (streamVideoPositions w) (f (streamBasePositions w)) (manuallyStoppingStreams w)
    (streams w) (videos w) (disk w) (procs w) (timers w) (schedulerCalls w) (clock w).

Definition set_manuallyStoppingStreams (f : gset string → gset string) (w : World) : World :=
  mkWorld (activeStreams w) (streamLogs w) (streamRetryCount w) (streamStartTimes w)
    (streamVideoPositions w) (streamBasePositions w) (f (manuallyStoppingStreams w))
    (streams w) (videos w) (disk w) (procs w) (timers w) (schedulerCalls w) (clock w).

Definition set_streams (f : gmap string StreamRow → gmap string StreamRow) (w : World) : World :=
  mkWorld (activeStreams w) (streamLogs w) (streamRetryCount w) (streamStartTimes w)
    (streamVideoPositions w) (streamBasePositions w) (manuallyStoppingStreams w)
    (f (streams w)) (videos w) (disk w) (procs w) (timers w) (schedulerCalls w) (clock w).

Definition set_procs (f : list Proc → list Proc) (w : World) : World :=
  mkWorld (activeStreams w) (streamLogs w) (streamRetryCount w) (streamStartTimes w)
    (streamVideoPositions w) (streamBasePositions w) (manuallyStoppingStreams w)
    (streams w) (videos w) (disk w) (f (procs w)) (timers w) (schedulerCalls w) (clock w).

Definition set_timers (f : list Timer → list Timer) (w : World) : World :=
  mkWorld (activeStreams w) (streamLogs w) (streamRetryCount w) (streamStartTimes w)
    (streamVideoPositions w) (streamBasePositions w) (manuallyStoppingStreams w)
    (streams w) (videos w) (disk w) (procs w) (f (timers w)) (schedulerCalls w) (clock w).

Definition set_schedulerCalls (f : list SchedCall → list SchedCall) (w : World) : World :=
  mkWorld (activeStreams w) (streamLogs w) (streamRetryCount w) (streamStartTimes w)
    (streamVideoPositions w) (streamBasePositions w) (manuallyStoppingStreams w)
    (streams w) (videos w) (disk w) (procs w) (timers w) (f (schedulerCalls w)) (clock w).

Definition set_clock (t : Z) (w : World) : World :=
  mkWorld (activeStreams w) (streamLogs w) (streamRetryCount w) (streamStartTimes w)
    (streamVideoPositions w) (streamBasePositions w) (manuallyStoppingStreams w)
    (streams w) (videos w) (disk w) (procs w) (timers w) (schedulerCalls w) t.

(** ** The log buffer *)

(** [logs.push(entry); if (logs.length > MAX_LOG_LINES) logs.shift()] *)
Definition push_bounded (entry : LogEntry) (logs : list LogEntry) : list LogEntry :=
  let logs := logs ++ [entry] in
  if decide (MAX_LOG_LINES < length logs)%nat then tail logs else logs.

Definition addStreamLog (streamId : string) (msg : Message) (w : World) : World :=
  let logs := default [] (streamLogs w !! streamId) in
  set_streamLogs <[streamId := push_bounded (mkLog (clock w) msg) logs]> w.

Definition getStreamLogs (streamId : string) (w : World) : list LogEntry :=
  default [] (streamLogs w !! streamId).

(** ** A state-and-exception monad for the handlers

    Handlers read and update the module maps and may [throw]; [try_catch]
    is the source's [try { ... } catch (error) { ... }], which keeps the
    updates made before the exception. *)

Inductive Outcome (A : Type) :=
| Returned (a : A)
| Thrown (err : string).
Arguments Returned {A} a.
Arguments Thrown {A} err.

Definition M (A : Type) : Type := World → Outcome A * World.

Definition ret {A} (a : A) : M A := λ w, (Returned a, w).

Definition bind {A B} (m : M A) (k : A → M B) : M B :=
  λ w, match m w with
       | (Returned a, w') => k a w'
       | (Thrown e, w') => (Thrown e, w')
       end.

Definition throw {A} (err : string) : M A := λ w, (Thrown err, w).

Definition try_catch {A} (m : M A) (handler : string → M A) : M A :=
  λ w, match m w with
       | (Returned a, w') => (Returned a, w')
       | (Thrown e, w') => handler e w'
       end.

Definition gets {A} (f : World → A) : M A := λ w, (Returned (f w), w).
Definition modify (f : World → World) : M unit := λ w, (Returned tt, f w).
Definition when (b : bool) (m : M unit) : M unit := if b then m else ret tt.

Declare Scope js_scope.
Delimit Scope js_scope with js.
Notation "x <- m ;; k" := (bind m (λ x, k))
  (at level 100, m at next level, k at level 200, right associativity) : js_scope.
Notation "m ;; k" := (bind m (λ _, k))
  (at level 100, k at level 200, right associativity) : js_scope.
Local Open Scope js_scope.

(** Run a handler from the event loop at the current state. *)
Definition exec {A} (m : M A) (w : World) : World := snd (m w).
Definition result {A} (m : M A) (w : World) : Outcome A := fst (m w).

(** ** JavaScript values *)

(** [!!resumePosition] for a number-or-null: null and 0 are falsy. *)
Definition truthy (resumePosition : option Z) : bool :=
  match resumePosition with
  | Some r => negb (r =? 0)
  | None => false
  end.

(** [resumePosition && resumePosition > 0] *)
Definition positive (resumePosition : option Z) : bool :=
  match resumePosition with
  | Some r => 0 <? r
  | None => false
  end.

(** [resumePosition || 0] *)
Definition or_zero (resumePosition : option Z) : Z := default 0 resumePosition.

(** [hay.includes(needle)] *)
Fixpoint includes (needle hay : string) : bool :=
  String.prefix needle hay ||
  match hay with
  | EmptyString => false
  | String _ rest => includes needle rest
  end.

(** ** Collaborators *)

Definition Stream_findById (id : string) : M (option StreamRow) :=
  gets (λ w, streams w !! id).

Definition with_status (st : string) (r : StreamRow) : StreamRow :=
  mkStream (video_id r) (user_id r) st (duration r) (loop_video r) (use_advanced_settings r).

Definition Stream_updateStatus (id : string) (st : string) : M unit :=
  modify (set_streams (alter (with_status st) id)).

Definition Video_findById (id : string) : M (option VideoRow) :=
  gets (λ w, videos w !! id).

(** [fs.existsSync(path.join(projectRoot, 'public', relativeVideoPath))]:
    the disk is the set of paths below [public] that exist. *)
Definition fs_existsSync (relativeVideoPath : string) : M bool :=
  gets (λ w, bool_decide (relativeVideoPath ∈ disk w)).

(** [spawn(ffmpegPath, ffmpegArgs, ...)]: the handle is the index of the new
    process in [procs]. *)
Definition spawn (streamId : string) (o : Options) : M nat :=
  pid <- gets (λ w, length (procs w));;
  modify (set_procs (λ ps, ps ++ [mkProc streamId o true []]));;
  ret pid.

Definition signalled (sig : string) (p : Proc) : Proc :=
  mkProc (p_stream p) (p_options p) (p_running p) (p_signals p ++ [sig]).

(** [ffmpegProcess.kill(sig)] *)
Definition kill (pid : nat) (sig : string) : M unit :=
  modify (set_procs (alter (signalled sig) pid)).

Definition setTimeout (cb : Callback) (delay : Q) : M unit :=
  modify (set_timers (λ ts, ts ++ [mkTimer delay cb])).

Definition scheduler (c : SchedCall) : M unit :=
  modify (set_schedulerCalls (λ cs, cs ++ [c])).

Definition log (streamId : string) (msg : Message) : M unit :=
  modify (addStreamLog streamId msg).

(** ** Results returned to callers *)

Inductive StartResult :=
| Started (isAdvancedMode resumed : bool)
| StartFailed (error : string).

Inductive StopResult :=
| Stopped (message : string)
| StopFailed (error : string).

Definition start_success (r : StartResult) : bool :=
  match r with Started _ _ => true | StartFailed _ => false end.

Definition stop_success (r : StopResult) : bool :=
  match r with Stopped _ => true | StopFailed _ => false end.

Definition err_StreamNotFound : string := "Stream not found".
Definition err_VideoFileMissing : string :=
  "Video file not found on disk. Please check paths and file existence.".
Definition err_VideoRecordMissing (video_id : string) : string :=
  String.append "Video record not found in database for video_id: " video_id.
Definition err_NotActive : string := "Stream is not active".
Definition err_AlreadyActive : string := "Stream is already active".
Definition msg_StatusFixed : string :=
  "Stream status fixed (was not active but marked as live)".
Definition msg_Stopped : string := "Stream stopped successfully".

(** ** The service (the revision with cumulative base positions) *)

Definition relativeVideoPath (filepath : string) : string :=
  match filepath with
  | String "/"%char rest => rest
  | _ => filepath
  end.

Definition buildFFmpegArgs (streamId : string) (stream : StreamRow)
    (resumePosition : option Z) : M Options :=
  video <- Video_findById (video_id stream);;
  match video with
  | None => throw (err_VideoRecordMissing (video_id stream))
  | Some video =>
    let videoPath := relativeVideoPath (filepath video) in
    found <- fs_existsSync videoPath;;
    if negb found then throw err_VideoFileMissing
    else
      let options := mkOptions videoPath (or_zero resumePosition)
                       (loop_video stream) (use_advanced_settings stream) in
      log streamId (MsgBuiltArgs options);;
      ret options
  end.

Definition startStream (streamId : string) (resumePosition : option Z) : M StartResult :=
  try_catch
    (when (negb (truthy resumePosition))
       (modify (set_streamRetryCount (delete streamId)));;
     stream <- Stream_findById streamId;;
     match stream with
     | None => ret (StartFailed err_StreamNotFound)
     | Some stream =>
       ffmpegArgs <- buildFFmpegArgs streamId stream resumePosition;;
       log streamId (MsgStarting ffmpegArgs);;
       when (truthy resumePosition) (log streamId (MsgResuming (or_zero resumePosition)));;
       ffmpegProcess <- spawn streamId ffmpegArgs;;
       modify (set_activeStreams <[streamId := ffmpegProcess]>);;
       startTime <- gets clock;;
       modify (set_streamStartTimes <[streamId := startTime]>);;
       (if positive resumePosition then
          modify (set_streamVideoPositions <[streamId := or_zero resumePosition]>);;
          modify (set_streamBasePositions <[streamId := or_zero resumePosition]>);;
          log streamId (MsgSetBase (or_zero resumePosition))
        else
          hasPosition <- gets (λ w, bool_decide (is_Some (streamVideoPositions w !! streamId)));;
          if negb hasPosition then
            modify (set_streamVideoPositions <[streamId := 0]>);;
            modify (set_streamBasePositions <[streamId := 0]>);;
            log streamId MsgInitBase
          else ret tt);;
       Stream_updateStatus streamId "live";;
       (match duration stream with
        | Some d => when (negb (d =? 0)) (scheduler (ScheduleTermination streamId d))
        | None => ret tt
        end);;
       ret (Started (use_advanced_settings stream) (truthy resumePosition))
     end)
    (λ error,
       log streamId (MsgFailedToStart error);;
       ret (StartFailed error)).

Definition calculateResumePosition (streamId : string) : M Z :=
  basePosition <- gets (λ w, default 0 (streamBasePositions w !! streamId));;
  startTime <- gets (λ w, streamStartTimes w !! streamId);;
  match startTime with
  | None =>
    log streamId (MsgNoStartTime basePosition);;
    ret basePosition
  | Some startTime =>
    now <- gets clock;;
    let elapsedSeconds := Z.max 0 ((now - startTime) / 1000) in
    let resumePosition := basePosition + elapsedSeconds in
    modify (set_streamVideoPositions <[streamId := resumePosition]>);;
    log streamId (MsgCalculated basePosition elapsedSeconds resumePosition);;
    ret resumePosition
  end.

Definition handleStreamCrash (streamId : string) (reason : string) : M unit :=
  retryCount <- gets (λ w, default 0 (streamRetryCount w !! streamId));;
  if retryCount <? MAX_RETRY_ATTEMPTS then
    modify (set_streamRetryCount <[streamId := retryCount + 1]>);;
    log streamId (MsgCrashed reason (retryCount + 1));;
    resumePosition <- calculateResumePosition streamId;;
    setTimeout (CrashRestart streamId resumePosition) 3000%Q
  else
    log streamId MsgMaxRetries;;
    Stream_updateStatus streamId "offline".

(** [Math.min(3000 * Math.pow(2, retryCount - 1), 30000)]; the exponent is
    negative for [retryCount = 0], hence the rationals. *)
Definition backoffDelay (retryCount : Z) : Q :=
  Qmin (3000 * 2 ^ (retryCount - 1))%Q 30000%Q.

Definition handleStreamError (streamId : string) (code : Z) (signal : option string)
    : M unit :=
  log streamId (MsgExitedWithCode code);;
  retryCount <- gets (λ w, default 0 (streamRetryCount w !! streamId));;
  if retryCount <? MAX_RETRY_ATTEMPTS then
    modify (set_streamRetryCount <[streamId := retryCount + 1]>);;
    resumePosition <- calculateResumePosition streamId;;
    let delay := backoffDelay retryCount in
    log streamId (MsgScheduling delay resumePosition);;
    setTimeout (ErrorRestart streamId resumePosition retryCount) delay
  else
    log streamId MsgMaxRetries;;
    Stream_updateStatus streamId "offline".

(** The bodies of the [setTimeout] closures. *)
Definition runCallback (cb : Callback) : M unit :=
  match cb with
  | CrashRestart streamId resumePosition =>
    try_catch
      (streamInfo <- Stream_findById streamId;;
       match streamInfo with
       | Some _ =>
         r <- startStream streamId (Some resumePosition);;
         when (negb (start_success r)) (Stream_updateStatus streamId "offline")
       | None => ret tt
       end)
      (λ _, Stream_updateStatus streamId "offline")
  | ErrorRestart streamId resumePosition retryCount =>
    try_catch
      (streamInfo <- Stream_findById streamId;;
       match streamInfo with
       | Some _ =>
         log streamId (MsgAttempting (retryCount + 1));;
         r <- startStream streamId (Some resumePosition);;
         match r with
         | StartFailed error =>
           log streamId (MsgRestartFailed error);;
           Stream_updateStatus streamId "offline"
         | Started _ _ => log streamId (MsgRestartOk resumePosition)
         end
       | None => log streamId MsgCannotRestart
       end)
      (λ error,
         log streamId (MsgRestartError error);;
         Stream_updateStatus streamId "offline")
  | HealthRestart streamId resumePosition =>
    try_catch
      (r <- startStream streamId (Some resumePosition);;
       match r with
       | Started _ _ => log streamId MsgHealthOk
       | StartFailed error => log streamId (MsgHealthFailed error)
       end)
      (λ error, log streamId (MsgHealthFailed error))
  end.

(** The ['exit'] listener registered by [startStream]; [streamId] is the
    variable the closure captured. *)
Definition onExit (streamId : string) (code : option Z) (signal : option string) : M unit :=
  log streamId (MsgEnded code signal);;
  wasActive <- gets (λ w, bool_decide (is_Some (activeStreams w !! streamId)));;
  modify (set_activeStreams (delete streamId));;
  isManualStop <- gets (λ w, bool_decide (streamId ∈ manuallyStoppingStreams w));;
  let markOffline :=
    when wasActive
      (Stream_updateStatus streamId "offline";;
       scheduler (StreamStopped streamId)) in
  if isManualStop then
    modify (set_manuallyStoppingStreams (λ s, s ∖ {[streamId]}));;
    markOffline
  else if bool_decide (signal = Some "SIGSEGV") then
    handleStreamCrash streamId "SIGSEGV"
  else
    match code with
    | Some c => if negb (c =? 0) then handleStreamError streamId c signal else markOffline
    | None => markOffline
    end.

(** The ['error'] listener. *)
Definition onError (streamId : string) (text : string) : M unit :=
  log streamId (MsgProcessError text);;
  modify (set_activeStreams (delete streamId));;
  Stream_updateStatus streamId "offline".

(** The [stdout] and [stderr] ['data'] listeners; [text] is the trimmed chunk. *)
Definition onStdout (streamId : string) (text : string) : M unit :=
  when (negb (String.eqb text "")) (log streamId (MsgOutput text)).

Definition onStderr (streamId : string) (text : string) : M unit :=
  when (negb (String.eqb text ""))
    (log streamId (MsgFFmpeg text);;
     when (includes "Broken pipe" text || includes "Connection refused" text ||
           includes "Network is unreachable" text || includes "No route to host" text)
       (log streamId (MsgNetworkError text))).

(** The health monitor keeps its own map of health records, outside the
    [World]; the notification sent to it is not represented. *)
Definition cleanupStreamData (streamId : string) : M unit :=
  modify (set_streamStartTimes (delete streamId));;
  modify (set_streamVideoPositions (delete streamId));;
  modify (set_streamBasePositions (delete streamId));;
  modify (set_streamRetryCount (delete streamId));;
  modify (set_streamLogs (delete streamId)).

(** [saveStreamHistory] appends a row to the history table, which no handler
    reads back; the table is left out of the [World].  [kill] is taken not
    to throw, and the termination scheduler to be loaded, so that each
    [handleStreamStopped] call of the source is a [StreamStopped] here. *)
Definition stopStream (streamId : string) : M StopResult :=
  try_catch
    (ffmpegProcess <- gets (λ w, activeStreams w !! streamId);;
     match ffmpegProcess with
     | None =>
       stream <- Stream_findById streamId;;
       match stream with
       | Some stream =>
         if bool_decide (status stream = "live") then
           Stream_updateStatus streamId "offline";;
           scheduler (StreamStopped streamId);;
           ret (Stopped msg_StatusFixed)
         else ret (StopFailed err_NotActive)
       | None => ret (StopFailed err_NotActive)
       end
     | Some pid =>
       log streamId MsgStopping;;
       modify (set_manuallyStoppingStreams (λ s, s ∪ {[streamId]}));;
       kill pid "SIGTERM";;
       stream <- Stream_findById streamId;;
       modify (set_activeStreams (delete streamId));;
       cleanupStreamData streamId;;
       (match stream with
        | Some _ => Stream_updateStatus streamId "offline"
        | None => ret tt
        end);;
       scheduler (StreamStopped streamId);;
       ret (Stopped msg_Stopped)
     end)
    (λ error,
       modify (set_manuallyStoppingStreams (λ s, s ∖ {[streamId]}));;
       ret (StopFailed error)).

Definition checkStreamHealth (streamId : string) : M bool :=
  stream <- Stream_findById streamId;;
  match stream with
  | None => ret false
  | Some stream =>
    isActive <- gets (λ w, bool_decide (is_Some (activeStreams w !! streamId)));;
    retryCount <- gets (λ w, default 0 (streamRetryCount w !! streamId));;
    if bool_decide (status stream = "live") && negb isActive &&
       (retryCount <? MAX_RETRY_ATTEMPTS) then
      log streamId MsgHealthRecovering;;
      resumePosition <- calculateResumePosition streamId;;
      setTimeout (HealthRestart streamId resumePosition) 5000%Q;;
      ret true
    else ret false
  end.

(** ** The event loop *)

Inductive Event :=
| EvStart (streamId : string) (resumePosition : option Z)
| EvStop (streamId : string)
| EvExit (pid : nat) (code : option Z) (signal : option string)
| EvError (pid : nat) (text : string)
| EvStdout (pid : nat) (text : string)
| EvStderr (pid : nat) (text : string)
| EvTimer (n : nat)
| EvHealth (streamId : string).

Definition exited (p : Proc) : Proc :=
  mkProc (p_stream p) (p_options p) false (p_signals p).

(** Listeners belong to a process and fire only while it has not exited. *)
Definition on_process (pid : nat) (listener : Proc → M unit) : M unit :=
  p <- gets (λ w, procs w !! pid);;
  match p with
  | Some p => if p_running p then listener p else ret tt
  | None => ret tt
  end.

Definition dispatch (e : Event) : M unit :=
  match e with
  | EvStart streamId resumePosition => _ <- startStream streamId resumePosition;; ret tt
  | EvStop streamId => _ <- stopStream streamId;; ret tt
  | EvExit pid code signal =>
    on_process pid (λ p,
      modify (set_procs (alter exited pid));;
      onExit (p_stream p) code signal)
  | EvError pid text => on_process pid (λ p, onError (p_stream p) text)
  | EvStdout pid text => on_process pid (λ p, onStdout (p_stream p) text)
  | EvStderr pid text => on_process pid (λ p, onStderr (p_stream p) text)
  | EvTimer n =>
    t <- gets (λ w, timers w !! n);;
    match t with
    | Some t => modify (set_timers (delete n));; runCallback (t_callback t)
    | None => ret tt
    end
  | EvHealth streamId => _ <- checkStreamHealth streamId;; ret tt
  end.

(** One turn of the event loop: event [e] is delivered at time [now]. *)
Definition step (w : World) (te : Z * Event) : World :=
  exec (dispatch te.2) (set_clock te.1 w).

Definition run (w : World) (trace : list (Z * Event)) : World :=
  fold_left step trace w.

(** ** Observations *)

(** The processes of a stream that have been spawned and have not exited. *)
Definition liveProcesses (streamId : string) (w : World) : list Proc :=
  filter (λ p, p_stream p = streamId ∧ p_running p = true) (procs w).

Definition durableStatus (streamId : string) (w : World) : option string :=
  status <$> streams w !! streamId.

Definition retryCountOf (streamId : string) (w : World) : Z :=
  default 0 (streamRetryCount w !! streamId).

(** An empty service next to a store holding one stream and its video. *)
Definition boot (streamId : string) : World :=
  mkWorld ∅ ∅ ∅ ∅ ∅ ∅ ∅
    {[ streamId := mkStream "v1" "u1" "offline" None false false ]}
    {[ "v1" := mkVideo "/uploads/v1.mp4" ]}
    {[ "uploads/v1.mp4" ]}
    [] [] [] 0.

(** ** The second copy of the service kept in the repository

    It differs from the one above where it matters here: [startStream] tests
    the registry before it looks up the stream, it zeroes the retry count
    instead of deleting it, and it tracks no base position. *)
Module GuardedRevision.

Definition buildFFmpegArgs (streamId : string) (stream : StreamRow)
    (resumePosition : option Z) : M Options :=
  video <- Video_findById (video_id stream);;
  match video with
  | None => throw (err_VideoRecordMissing (video_id stream))
  | Some video =>
    let videoPath := relativeVideoPath (filepath video) in
    found <- fs_existsSync videoPath;;
    if negb found then throw err_VideoFileMissing
    else
      when (positive resumePosition) (log streamId (MsgResuming (or_zero resumePosition)));;
      ret (mkOptions videoPath (if positive resumePosition then or_zero resumePosition else 0)
             (loop_video stream) (use_advanced_settings stream))
  end.

Definition startStream (streamId : string) (resumePosition : option Z) : M StartResult :=
  try_catch
    (when (negb (truthy resumePosition))
       (modify (set_streamRetryCount <[streamId := 0]>));;
     isActive <- gets (λ w, bool_decide (is_Some (activeStreams w !! streamId)));;
     if isActive then ret (StartFailed err_AlreadyActive)
     else
       stream <- Stream_findById streamId;;
       match stream with
       | None => ret (StartFailed err_StreamNotFound)
       | Some stream =>
         ffmpegArgs <- buildFFmpegArgs streamId stream resumePosition;;
         log streamId (MsgStarting ffmpegArgs);;
         when (truthy resumePosition) (log streamId (MsgResuming (or_zero resumePosition)));;
         ffmpegProcess <- spawn streamId ffmpegArgs;;
         modify (set_activeStreams <[streamId := ffmpegProcess]>);;
         startTime <- gets clock;;
         modify (set_streamStartTimes <[streamId := startTime]>);;
         Stream_updateStatus streamId "live";;
         (match duration stream with
          | Some d => when (negb (d =? 0)) (scheduler (ScheduleTermination streamId d))
          | None => ret tt
          end);;
         ret (Started (use_advanced_settings stream) (truthy resumePosition))
       end)
    (λ error,
       log streamId (MsgFailedToStart error);;
       ret (StartFailed error)).

End GuardedRevision.

(** ** Statements about the log buffer *)

(** Appending a batch of lines, each stamped with the time it arrives. *)
Definition appendAll (streamId : string) (lines : list (Z * Message)) (w : World) : World :=
  fold_left (λ w l, addStreamLog streamId l.2 (set_clock l.1 w)) lines w.

Definition entryOf (l : Z * Message) : LogEntry := mkLog l.1 l.2.

(** The buffer after pushing the entries [es], oldest first. *)
Definition pushAll (es : list LogEntry) (l : list LogEntry) : list LogEntry :=
  fold_left (λ l e, push_bounded e l) es l.

(** ** Statements about the resume position *)

(** The tracker as the specification words it: base plus whole elapsed
    seconds, never negative; the stored base (or 0) without a start time. *)
Definition spec_computeResumePosition (basePosition startedAt : option Z) (now : Z) : Z :=
  match startedAt with
  | Some startedAt => default 0 basePosition + Z.max 0 ((now - startedAt) / 1000)
  | None => default 0 basePosition
  end.

(** One crash-and-retry cycle: the running instance exits [c_elapsed]
    milliseconds after its launch, and the restart timer fires [c_wait]
    milliseconds later. *)
Record Cycle := mkCycle {
  c_elapsed : Z;
  c_code : option Z;
  c_signal : option string;
  c_wait : Z
}.

Fixpoint crashCycles (slot pid : nat) (startedAt : Z) (cs : list Cycle)
    : list (Z * Event) :=
  match cs with
  | [] => []
  | c :: cs =>
    let exitAt := startedAt + c_elapsed c in
    let fireAt := exitAt + c_wait c in
    (exitAt, EvExit pid (c_code c) (c_signal c)) ::
    (fireAt, EvTimer slot) :: crashCycles slot (S pid) fireAt cs
  end.

(** The resume position each spawned process was given, oldest first. *)
Definition resumePositions (w : World) : list Z :=
  map (λ p, opt_resumePosition (p_options p)) (procs w).

(** Instance [k + 1] resumes where instance [k] started plus the whole
    seconds instance [k] ran, for a stream started with [resumePosition] at
    time [startedAt] in world [w0] and then put through the cycles [cs].
    Position [slot] of the timer queue is where the restart timer lands. *)
Definition cumulativeResume (w0 : World) (streamId : string) (resumePosition : option Z)
    (startedAt : Z) (cs : list Cycle) : Prop :=
  let n0 := length (procs w0) in
  let w := run w0 ((startedAt, EvStart streamId resumePosition) ::
                   crashCycles (length (timers w0)) n0 startedAt cs) in
  ∀ k c a b,
    cs !! k = Some c → 0 ≤ c_elapsed c →
    drop n0 (resumePositions w) !! k = Some a →
    drop n0 (resumePositions w) !! S k = Some b →
    b = a + c_elapsed c / 1000 ∧ a ≤ b.

(** The positions [l] of the instances that follow one resumed at [seek]. *)
Fixpoint chained (seek : Z) (cs : list Cycle) (l : list Z) : Prop :=
  match l, cs with
  | [], _ => True
  | b :: l, c :: cs => b = seek + Z.max 0 (c_elapsed c / 1000) ∧ chained b cs l
  | _ :: _, [] => False
  end.

Definition callbackPosition (cb : Callback) : Z :=
  match cb with
  | CrashRestart _ pos | ErrorRestart _ pos _ | HealthRestart _ pos => pos
  end.

(** The start request is valid: record, video row and media file exist. *)
Definition startable (streamId : string) (w : World) : Prop :=
  ∃ s v, streams w !! streamId = Some s ∧ videos w !! video_id s = Some v ∧
         relativeVideoPath (filepath v) ∈ disk w.

(** One of the three preconditions of a start fails. *)
Definition startPreconditionFails (streamId : string) (w : World) : Prop :=
  streams w !! streamId = None ∨
  (∃ s, streams w !! streamId = Some s ∧ videos w !! video_id s = None) ∨
  (∃ s v, streams w !! streamId = Some s ∧ videos w !! video_id s = Some v ∧
          relativeVideoPath (filepath v) ∉ disk w).

(** ** Statements about exit classification *)

(** Signals the kernel raises for a fault of the process itself. *)
Definition faultSignals : list string :=
  ["SIGSEGV"; "SIGBUS"; "SIGFPE"; "SIGILL"; "SIGABRT"].

(** What the exit listener does up to the point where it classifies. *)
Definition exitPrologue (streamId : string) (code : option Z) (signal : option string)
    : M unit :=
  log streamId (MsgEnded code signal);;
  modify (set_activeStreams (delete streamId)).

(** The exit was handed to the crash retry path. *)
Definition takesCrashPath (streamId : string) (code : option Z) (signal : string)
    (w : World) : Prop :=
  ∃ reason,
    exec (onExit streamId code (Some signal)) w =
    exec (exitPrologue streamId code (Some signal);; handleStreamCrash streamId reason) w.

(** ** Statements about manual stop *)

Definition callbackStream (cb : Callback) : string :=
  match cb with
  | CrashRestart streamId _ | ErrorRestart streamId _ _ | HealthRestart streamId _ => streamId
  end.

Definition isRetry (cb : Callback) : bool :=
  match cb with
  | CrashRestart _ _ | ErrorRestart _ _ _ => true
  | HealthRestart _ _ => false
  end.

(** A stop request delivered while retry timer [n] of the stream is pending
    keeps that timer from spawning anything when it fires. *)
Definition manualStopPrecedence (w : World) : Prop :=
  ∀ n t stopAt fireAt,
    timers w !! n = Some t → isRetry (t_callback t) = true →
    let w1 := step w (stopAt, EvStop (callbackStream (t_callback t))) in
    let w2 := step w1 (fireAt, EvTimer n) in
    procs w2 = procs w1.

(** ** Scenarios *)

(** A fresh start whose process exits with code 1 after twelve seconds. *)
Definition firstErrorExit : World :=
  run (boot "s1") [(0, EvStart "s1" None); (12000, EvExit 0 (Some 1) None)].

(** Two start requests for the same stream, half a second apart. *)
Definition doubleStart : World :=
  run (boot "s1") [(0, EvStart "s1" None); (500, EvStart "s1" None)].

(** A stream whose encoder dies half a second after every launch. *)
Definition quickFailure : Cycle := mkCycle 500 (Some 1) None 3000.

Definition failingAtOnce (n : nat) : World :=
  run (boot "s1") ((0, EvStart "s1" None) :: crashCycles 0 0 0 (replicate n quickFailure)).

(** ** Invariants of handlers *)

(** [m] keeps [I], whether it returns or throws. *)
Definition preserves {A} (I : World → Prop) (m : M A) : Prop :=
  ∀ w, I w → I (exec m w).

Definition retryCountsBounded (w : World) : Prop :=
  ∀ streamId n, streamRetryCount w !! streamId = Some n → n ≤ MAX_RETRY_ATTEMPTS.

Definition logsBounded (w : World) : Prop :=
  ∀ streamId l, streamLogs w !! streamId = Some l → (length l ≤ MAX_LOG_LINES)%nat.

(** Every termination by a fault signal that is not a manual stop is handed
    to the crash retry path. *)
Definition everyFaultSignalIsCrash : Prop :=
  ∀ w streamId code signal,
    signal ∈ faultSignals → streamId ∉ manuallyStoppingStreams w →
    takesCrashPath streamId code signal w.

(** One stream, started afresh, twelve seconds into its run. *)
Definition running : World :=
  set_clock 12000 (run (boot "s1") [(0, EvStart "s1" None)]).

(** The world of [firstErrorExit] after the stream's row has been deleted. *)
Definition recordDeleted : World := set_streams (delete "s1") firstErrorExit.

(** A session that crashed after 100 s, was resumed at 100, and then ran to
    a clean exit: nothing is tracked as active, the base position stays. *)
Definition afterCleanExit : World :=
  run (boot "s1")
    [(0, EvStart "s1" None); (100000, EvExit 0 None (Some "SIGSEGV"));
     (103000, EvTimer 0); (200000, EvExit 1 (Some 0) None)].

(** ** Invariants of a crash-and-retry run *)

(** A failure handler queued a retry of the stream behind the pending timers. *)
Definition retryScheduled (streamId : string) (startedAt : Z) (w w' : World) : Prop :=
  ∃ d cb,
    timers w' = timers w ++ [mkTimer d cb] ∧ isRetry cb = true ∧
    callbackStream cb = streamId ∧
    callbackPosition cb =
      default 0 (streamBasePositions w !! streamId) +
      Z.max 0 ((clock w - startedAt) / 1000) ∧
    streamBasePositions w' = streamBasePositions w ∧
    is_Some (streamVideoPositions w' !! streamId).

(** A restart callback spawned a new instance of the stream at [pos]. *)
Definition restarted (streamId : string) (pos : Z) (w w' : World) : Prop :=
  ∃ o,
    procs w' = procs w ++ [mkProc streamId o true []] ∧
    opt_resumePosition o = pos ∧
    streamStartTimes w' !! streamId = Some (clock w) ∧
    default 0 (streamBasePositions w' !! streamId) =
      if 0 <? pos then pos
      else if bool_decide (is_Some (streamVideoPositions w !! streamId))
           then default 0 (streamBasePositions w !! streamId) else 0.

(** Process [pid] is the running instance of the stream: it was launched at
    [startedAt], the stored base position is [seek], and the next timer to be
    queued lands in [slot]. *)
Definition Running (streamId : string) (slot pid : nat) (startedAt seek : Z) (w : World)
    : Prop :=
  length (procs w) = S pid ∧
  (∃ p, procs w !! pid = Some p ∧ p_stream p = streamId ∧ p_running p = true) ∧
  streamStartTimes w !! streamId = Some startedAt ∧
  default 0 (streamBasePositions w !! streamId) = seek ∧
  0 ≤ seek ∧
  length (timers w) = slot.

(** No instance is left to fail and no retry is pending. *)
Definition Halted (slot pid : nat) (w : World) : Prop :=
  (length (procs w) ≤ pid)%nat ∧ (length (timers w) ≤ slot)%nat.

(** Three failures of one session: an error exit after 12 s, a crash after
    30 s more, an error exit one second into the third run. *)
Definition sampleCycles : list Cycle :=
  [mkCycle 12000 (Some 1) None 1500; mkCycle 30000 None (Some "SIGSEGV") 3000;
   mkCycle 1000 (Some 1) None 3000].

(** A batch one line longer than the buffer. *)
Definition sampleLines : list (Z * Message) :=
  map (λ n, (Z.of_nat n, MsgOutput "frame")) (seq 0 101).

(** ** Read access to the service *)

Definition isStreamActive (streamId : string) (w : World) : bool :=
  bool_decide (is_Some (activeStreams w !! streamId)).

Definition getStreamVideoPosition (streamId : string) (w : World) : Z :=
  default 0 (streamVideoPositions w !! streamId).

Definition getStreamBasePosition (streamId : string) (w : World) : Z :=
  default 0 (streamBasePositions w !! streamId).

Definition getStreamStartTime (streamId : string) (w : World) : option Z :=
  streamStartTimes w !! streamId.

(** [Math.floor((now - startTime) / 1000)], and 0 without a start time. *)
Definition getStreamElapsedTime (streamId : string) (w : World) : Z :=
  match streamStartTimes w !! streamId with
  | None => 0
  | Some startTime => (clock w - startTime) / 1000
  end.

Record StreamStatus := mkStatus {
  st_isActive : bool;
  st_startTime : option Z;
  st_elapsedTime : Z;
  st_videoPosition : option Z;
  st_basePosition : option Z;
  st_retryCount : Z;
  st_logCount : nat;
  st_lastLog : option LogEntry
}.

Definition getStreamStatus (streamId : string) (w : World) : StreamStatus :=
  let logs := default [] (streamLogs w !! streamId) in
  mkStatus
    (bool_decide (is_Some (activeStreams w !! streamId)))
    (streamStartTimes w !! streamId)
    (match streamStartTimes w !! streamId with
     | Some _ => getStreamElapsedTime streamId w
     | None => 0
     end)
    (streamVideoPositions w !! streamId)
    (streamBasePositions w !! streamId)
    (default 0 (streamRetryCount w !! streamId))
    (length logs)
    (last logs).

(** Everything the service tracks about one stream. *)
Definition tracking (streamId : string) (w : World)
    : option nat * list LogEntry * option Z * option Z * option Z * option Z * bool :=
  (activeStreams w !! streamId, getStreamLogs streamId w,
   streamRetryCount w !! streamId, streamStartTimes w !! streamId,
   streamVideoPositions w !! streamId, streamBasePositions w !! streamId,
   bool_decide (streamId ∈ manuallyStoppingStreams w)).

(** An exit that is neither a crash nor an error: no SIGSEGV, and an exit
    code that is 0 or missing. *)
Definition cleanExit (code : option Z) (signal : option string) : Prop :=
  signal ≠ Some "SIGSEGV" ∧ (code = None ∨ code = Some 0).

(** Events whose handlers may queue a timer. *)
Definition schedules (e : Event) : bool :=
  match e with
  | EvExit _ _ _ | EvHealth _ => true
  | _ => false
  end.

(** Two streams, the second one already resumed at 100 and running. *)
Definition twoStreams : World :=
  run
    (mkWorld ∅ ∅ ∅ ∅ ∅ ∅ ∅
       {[ "s1" := mkStream "v1" "u1" "offline" None false false;
          "s2" := mkStream "v1" "u1" "offline" (Some 60) true true ]}
       {[ "v1" := mkVideo "/uploads/v1.mp4" ]}
       {[ "uploads/v1.mp4" ]}
       [] [] [] 0)
    [(0, EvStart "s1" None); (1000, EvStart "s2" (Some 100))].

(** A stream whose row names a video that has no record. *)
Definition videoMissing : World :=
  mkWorld ∅ ∅ {[ "s1" := 2 ]} ∅ ∅ ∅ ∅
    {[ "s1" := mkStream "v9" "u1" "live" None false false ]}
    ∅ ∅ [] [] [] 0.

(** The service's health check finds the stream in need of recovery. *)
Definition needsRecovery (streamId : string) (w : World) : Prop :=
  (∃ s, streams w !! streamId = Some s ∧ status s = "live") ∧
  activeStreams w !! streamId = None ∧
  retryCountOf streamId w < MAX_RETRY_ATTEMPTS.

(** A restart by the service's health check is waiting in the timer queue. *)
Definition recoveryQueued (streamId : string) (w : World) : Prop :=
  ∃ resumePosition,
    mkTimer 5000%Q (HealthRestart streamId resumePosition) ∈ timers w.

(** Every registry entry names a process of that stream that has not exited. *)
Definition registrySound (w : World) : Prop :=
  ∀ streamId pid, activeStreams w !! streamId = Some pid →
    ∃ p, procs w !! pid = Some p ∧ p_stream p = streamId ∧ p_running p = true.

(** The process was sent SIGTERM. *)
Definition terminated (pid : nat) (w : World) : Prop :=
  ∃ p, procs w !! pid = Some p ∧ "SIGTERM" ∈ p_signals p.

(** ** The invocation builder (utils/ffmpegConfig.js) *)

Module FFmpegConfig.

Definition STABLE_FFMPEG_OPTIONS : list string :=
  ["-hwaccel"; "none"; "-loglevel"; "error"; "-re";
   "-fflags"; "+genpts+igndts+discardcorrupt";
   "-avoid_negative_ts"; "make_zero";
   "-max_muxing_queue_size"; "1024";
   "-tune"; "zerolatency"].

Definition RTMP_NETWORK_OPTIONS : list string :=
  ["-flvflags"; "no_duration_filesize"; "-rtmp_live"; "live";
   "-rtmp_buffer"; "5000"; "-rtmp_conn"; "B:1";
   "-rtmp_tls"; "0"; "-rtmp_tls_verify"; "0"].

Record VideoEncoding := mkVideoEncoding {
  v_codec : string; v_preset : string; v_tune : string; v_g : string;
  v_keyint_min : string; v_sc_threshold : string; v_pix_fmt : string;
  v_profile : string; v_level : string
}.

Definition VIDEO_ENCODING_OPTIONS : VideoEncoding :=
  mkVideoEncoding "libx264" "ultrafast" "zerolatency" "30" "30" "0" "yuv420p"
    "baseline" "3.1".

Record AudioEncoding := mkAudioEncoding {
  a_codec : string; a_bitrate : string; a_sample_rate : string; a_channels : string
}.

Definition AUDIO_ENCODING_OPTIONS : AudioEncoding :=
  mkAudioEncoding "aac" "128k" "44100" "2".

(** The [options] object; a field left undefined is [None] and takes the
    default of the destructuring pattern. *)
Record ArgOptions := mkArgOptions {
  resumePosition : option Z;
  bitrate : option string;
  resolution : option string;
  fps : option Z;
  loopVideo : option bool;
  useAdvancedSettings : option bool
}.

Section Builder.

(** The text of [parseInt(bitrate) * 2] as the template literal renders it;
    parsing and rendering are the language's, not the repository's. *)
Variable doubled : string → string.

Definition buildFFmpegArgs (videoPath rtmpUrl : string) (options : ArgOptions)
    : list string :=
  let resumePosition := default 0 (resumePosition options) in
  let bitrate := default "2500k" (bitrate options) in
  let resolution := default "1280x720" (resolution options) in
  let fps := default 30 (fps options) in
  let loopVideo := default false (loopVideo options) in
  let useAdvancedSettings := default false (useAdvancedSettings options) in
  let args := STABLE_FFMPEG_OPTIONS in
  let args :=
    if 0 <? resumePosition then args ++ ["-ss"; pretty resumePosition] else args in
  let args :=
    if loopVideo then args ++ ["-stream_loop"; "-1"] else args ++ ["-stream_loop"; "0"] in
  let args := args ++ ["-i"; videoPath] in
  if useAdvancedSettings then
    args ++
    ["-c:v"; v_codec VIDEO_ENCODING_OPTIONS;
     "-preset"; v_preset VIDEO_ENCODING_OPTIONS;
     "-tune"; v_tune VIDEO_ENCODING_OPTIONS;
     "-g"; v_g VIDEO_ENCODING_OPTIONS;
     "-keyint_min"; v_keyint_min VIDEO_ENCODING_OPTIONS;
     "-sc_threshold"; v_sc_threshold VIDEO_ENCODING_OPTIONS;
     "-b:v"; bitrate;
     "-maxrate"; bitrate;
     "-bufsize"; String.append (doubled bitrate) "k";
     "-pix_fmt"; v_pix_fmt VIDEO_ENCODING_OPTIONS;
     "-profile:v"; v_profile VIDEO_ENCODING_OPTIONS;
     "-level:v"; v_level VIDEO_ENCODING_OPTIONS;
     "-s"; resolution;
     "-r"; pretty fps;
     "-c:a"; a_codec AUDIO_ENCODING_OPTIONS;
     "-b:a"; a_bitrate AUDIO_ENCODING_OPTIONS;
     "-ar"; a_sample_rate AUDIO_ENCODING_OPTIONS;
     "-ac"; a_channels AUDIO_ENCODING_OPTIONS;
     "-f"; "flv"] ++ RTMP_NETWORK_OPTIONS ++ [rtmpUrl]
  else
    args ++ ["-c:v"; "copy"; "-c:a"; "copy"; "-f"; "flv"] ++ RTMP_NETWORK_OPTIONS ++ [rtmpUrl].

(** The options object the service builds from what it modelled as [Options];
    bitrate, resolution and frame rate come from the stream row. *)
Definition serviceOptions (o : Options) (bitrate resolution : string) (fps : Z)
    : ArgOptions :=
  mkArgOptions (Some (opt_resumePosition o)) (Some bitrate) (Some resolution) (Some fps)
    (Some (opt_loopVideo o)) (Some (opt_useAdvancedSettings o)).

(** The option that follows the first occurrence of [flag]. *)
Fixpoint valueOf (flag : string) (args : list string) : option string :=
  match args with
  | a :: rest =>
    if String.eqb a flag then head rest else valueOf flag rest
  | [] => None
  end.

End Builder.

End FFmpegConfig.

(** ** The health monitor (services/streamHealthMonitor.js)

    The monitor owns a map of health records and talks to the service only
    through its exported functions.  Its own [setTimeout] closures are kept
    in [pending], the events it emits in [emitted]; [Date.now()] reads the
    service's clock.  Once the monitor is installed, the service's
    [cleanupStreamData] calls [cleanupStream] back; that call is made where
    the monitor invokes [stopStream]. *)

Module HealthMonitor.

Definition MONITORING_INTERVAL : Z := 10000.
Definition HEALTH_CHECK_TIMEOUT : Z := 30000.
Definition MAX_CONSECUTIVE_FAILURES : Z := 3.

Record HealthCheck := mkHealth {
  consecutiveFailures : Z;
  lastCheck : Z;
  isHealthy : bool
}.

(** The two recovery closures handed to [setTimeout]. *)
Inductive Recovery :=
| StalledRestart (streamId : string) (resumePosition : Z)
| UnhealthyRestart (streamId : string) (resumePosition : Z).

Inductive Emitted :=
| streamRecovered (streamId : string) (resumePosition : Z)
| streamRecoveryFailed (streamId : string) (error : string).

Record Monitor := mkMonitor {
  service : World;
  healthChecks : gmap string HealthCheck;
  pending : list (Z * Recovery);
  emitted : list Emitted
}.

Definition set_service (f : World → World) (m : Monitor) : Monitor :=
  mkMonitor (f (service m)) (healthChecks m) (pending m) (emitted m).

Definition set_healthChecks (f : gmap string HealthCheck → gmap string HealthCheck)
    (m : Monitor) : Monitor :=
  mkMonitor (service m) (f (healthChecks m)) (pending m) (emitted m).

Definition set_pending (f : list (Z * Recovery) → list (Z * Recovery)) (m : Monitor)
    : Monitor :=
  mkMonitor (service m) (healthChecks m) (f (pending m)) (emitted m).

Definition set_emitted (f : list Emitted → list Emitted) (m : Monitor) : Monitor :=
  mkMonitor (service m) (healthChecks m) (pending m) (f (emitted m)).

Definition cleanupStream (streamId : string) (m : Monitor) : Monitor :=
  set_healthChecks (delete streamId) m.

(** [await streamingService.stopStream(streamId)]: the service stops the
    stream and, on the path that cleans its tracking data up, notifies the
    monitor. *)
Definition service_stopStream (streamId : string) (m : Monitor) : Monitor :=
  let registered := isStreamActive streamId (service m) in
  let m := set_service (exec (stopStream streamId)) m in
  if registered then cleanupStream streamId m else m.

(** [videoPosition > 0 ? videoPosition : elapsedTime] *)
Definition recoveryPosition (streamId : string) (w : World) : Z :=
  let videoPosition := getStreamVideoPosition streamId w in
  let elapsedTime := getStreamElapsedTime streamId w in
  if 0 <? videoPosition then videoPosition else elapsedTime.

Definition handleStalledStream (streamId : string) (m : Monitor) : Monitor :=
  let resumePosition := recoveryPosition streamId (service m) in
  let m := service_stopStream streamId m in
  set_pending (λ ps, ps ++ [(2000, StalledRestart streamId resumePosition)]) m.

Definition handleUnhealthyStream (streamId : string) (m : Monitor) : Monitor :=
  let resumePosition := recoveryPosition streamId (service m) in
  let m := service_stopStream streamId m in
  set_pending (λ ps, ps ++ [(5000, UnhealthyRestart streamId resumePosition)]) m.

(** The bodies of the two [setTimeout] closures. *)
Definition runRecovery (r : Recovery) (m : Monitor) : Monitor :=
  match r with
  | StalledRestart streamId resumePosition =>
    let res := result (startStream streamId (Some resumePosition)) (service m) in
    let m := set_service (exec (startStream streamId (Some resumePosition))) m in
    match res with
    | Returned (Started _ _) =>
      set_emitted (λ es, es ++ [streamRecovered streamId resumePosition]) m
    | Returned (StartFailed error) | Thrown error =>
      set_emitted (λ es, es ++ [streamRecoveryFailed streamId error]) m
    end
  | UnhealthyRestart streamId resumePosition =>
    let res := result (startStream streamId (Some resumePosition)) (service m) in
    let m := set_service (exec (startStream streamId (Some resumePosition))) m in
    match res with
    | Returned (Started _ _) =>
      set_healthChecks (delete streamId)
        (set_emitted (λ es, es ++ [streamRecovered streamId resumePosition]) m)
    | Returned (StartFailed error) | Thrown error =>
      set_emitted (λ es, es ++ [streamRecoveryFailed streamId error]) m
    end
  end.

Definition updateHealthStatus (streamId : string) (healthy : bool) (m : Monitor)
    : Monitor :=
  let now := clock (service m) in
  let healthCheck :=
    default (mkHealth 0 now true) (healthChecks m !! streamId) in
  let m :=
    if healthy then
      set_healthChecks <[streamId := mkHealth 0 (lastCheck healthCheck) true]> m
    else
      let failures := consecutiveFailures healthCheck + 1 in
      let m :=
        set_healthChecks <[streamId := mkHealth failures (lastCheck healthCheck) false]> m in
      if MAX_CONSECUTIVE_FAILURES <=? failures then handleUnhealthyStream streamId m
      else m in
  set_healthChecks
    (alter (λ h, mkHealth (consecutiveFailures h) now (isHealthy h)) streamId) m.

Definition checkStreamHealth (streamId : string) (m : Monitor) : Monitor :=
  let streamStatus := getStreamStatus streamId (service m) in
  if negb (st_isActive streamStatus) then set_healthChecks (delete streamId) m
  else
    let elapsedTime := st_elapsedTime streamStatus in
    let stalled :=
      if HEALTH_CHECK_TIMEOUT / 1000 <? elapsedTime then
        match st_lastLog streamStatus with
        | Some lastLog =>
          HEALTH_CHECK_TIMEOUT <? clock (service m) - timestamp lastLog
        | None => false
        end
      else false in
    if stalled then handleStalledStream streamId m
    else updateHealthStatus streamId true m.

(** [checkAllStreams] walks [getActiveStreams()], taken when the round
    starts; the registry of the model keeps no insertion order, so the list
    is given. *)
Definition checkAllStreams (activeStreams : list string) (m : Monitor) : Monitor :=
  fold_left (λ m streamId, checkStreamHealth streamId m) activeStreams m.

(** [shutdownServices] of the service index: every listed stream is stopped. *)
Definition shutdownServices (activeStreams : list string) (m : Monitor) : Monitor :=
  fold_left (λ m streamId, service_stopStream streamId m) activeStreams m.

(** What can happen to an installed monitor. *)
Inductive MonitorEvent :=
| MCheck (streamId : string)
| MReport (streamId : string) (healthy : bool)
| MRecover (n : nat)
| MService (e : Event).

Definition monitorStep (m : Monitor) (te : Z * MonitorEvent) : Monitor :=
  let m := set_service (set_clock te.1) m in
  match te.2 with
  | MCheck streamId => checkStreamHealth streamId m
  | MReport streamId healthy => updateHealthStatus streamId healthy m
  | MRecover n =>
    match pending m !! n with
    | Some r => runRecovery r.2 (set_pending (delete n) m)
    | None => m
    end
  | MService (EvStop streamId) => service_stopStream streamId m
  | MService e => set_service (exec (dispatch e)) m
  end.

Definition monitorRun (m : Monitor) (trace : list (Z * MonitorEvent)) : Monitor :=
  fold_left monitorStep trace m.

(** A health record is healthy exactly when it counts no failures. *)
Definition recordsConsistent (m : Monitor) : Prop :=
  ∀ streamId h, healthChecks m !! streamId = Some h →
    0 ≤ consecutiveFailures h ∧
    (isHealthy h = true ↔ consecutiveFailures h = 0).

(** The same, of a map of health records. *)
Definition mapConsistent (hm : gmap string HealthCheck) : Prop :=
  ∀ streamId h, hm !! streamId = Some h →
    0 ≤ consecutiveFailures h ∧ (isHealthy h = true ↔ consecutiveFailures h = 0).

(** The condition under which a health check takes a stream for stalled. *)
Definition stalled (streamId : string) (w : World) : Prop :=
  is_Some (activeStreams w !! streamId) ∧
  30 < getStreamElapsedTime streamId w ∧
  ∃ l, last (getStreamLogs streamId w) = Some l ∧
       HEALTH_CHECK_TIMEOUT < clock w - timestamp l.

Definition install (w : World) : Monitor := mkMonitor w ∅ [] [].

End HealthMonitor.

(** ** Reconciliation of durable status and registry *)

(** The body of the first loop of [syncStreamStatuses], for one stream that
    the store lists as live. *)
Definition syncLiveStream (streamId : string) : M unit :=
  isReallyActive <- gets (λ w, bool_decide (is_Some (activeStreams w !! streamId)));;
  if negb isReallyActive then
    needsRecovery <- checkStreamHealth streamId;;
    if negb needsRecovery then Stream_updateStatus streamId "offline" else ret tt
  else ret tt.

(** The body of the second loop, for one key of the registry. *)
Definition syncActiveStream (streamId : string) : M unit :=
  stream <- Stream_findById streamId;;
  match stream with
  | Some stream =>
    if bool_decide (status stream ≠ "live") then Stream_updateStatus streamId "live"
    else ret tt
  | None =>
    process <- gets (λ w, activeStreams w !! streamId);;
    (match process with
     | Some pid => kill pid "SIGTERM"
     | None => ret tt
     end);;
    modify (set_activeStreams (delete streamId))
  end.

Fixpoint forEach (ids : list string) (body : string → M unit) : M unit :=
  match ids with
  | [] => ret tt
  | id :: ids => body id;; forEach ids body
  end.

(** [liveStreams] is what [Stream.findAll(null, 'live')] returned and
    [activeStreamIds] the keys of the registry, each in the order the
    runtime gave them. *)
Definition syncStreamStatuses (liveStreams activeStreamIds : list string) : M unit :=
  try_catch
    (forEach liveStreams syncLiveStream;;
     forEach activeStreamIds syncActiveStream)
    (λ _, ret tt).

(** A registered stream whose row reads "offline" next to one whose row is
    gone, and an unregistered stream whose row reads "live". *)
Definition drifted : World :=
  set_streams (λ rows, <["s3" := mkStream "v1" "u1" "live" None false false]>
                         (delete "s2" (alter (with_status "offline") "s1" rows)))
    twoStreams.

(** The computation ends normally in every state. *)
Definition returns (m : M unit) : Prop := ∀ w, m w = (Returned tt, exec m w).

(** * Properties *)

(** ** Running the monad *)

Lemma exec_bind {A B} (m : M A) (k : A → M B) w :
  exec (bind m k) w =
  match m w with
  | (Returned a, w') => exec (k a) w'
  | (Thrown _, w') => w'
  end.
Proof. unfold exec, bind. by destruct (m w) as [[a|e] w']. Qed.

Lemma exec_modify f w : exec (modify f) w = f w.
Proof. reflexivity. Qed.

(** ** The log buffer *)

Section LogBuffer.

Lemma push_bounded_drop e l :
  (length l ≤ MAX_LOG_LINES)%nat →
  push_bounded e l = drop (length (l ++ [e]) - MAX_LOG_LINES) (l ++ [e]).
Proof.
  intros Hl. unfold push_bounded. rewrite length_app. simpl.
  case_decide as Hgt.
  - replace (length l + 1 - MAX_LOG_LINES)%nat with 1%nat by lia.
    by destruct (l ++ [e]).
  - by replace (length l + 1 - MAX_LOG_LINES)%nat with 0%nat by lia.
Qed.

Lemma push_bounded_length e l :
  (length l ≤ MAX_LOG_LINES)%nat → (length (push_bounded e l) ≤ MAX_LOG_LINES)%nat.
Proof.
  intros Hl. rewrite push_bounded_drop by done.
  rewrite length_drop, length_app. simpl. lia.
Qed.

Lemma pushAll_drop es l :
  (length l ≤ MAX_LOG_LINES)%nat →
  pushAll es l = drop (length (l ++ es) - MAX_LOG_LINES) (l ++ es).
Proof.
  unfold pushAll. revert l. induction es as [|e es IH]; intros l Hl; simpl.
  - rewrite app_nil_r. by replace (length l - MAX_LOG_LINES)%nat with 0%nat by lia.
  - rewrite IH by by apply push_bounded_length.
    rewrite push_bounded_drop by done.
    set (d := (length (l ++ [e]) - MAX_LOG_LINES)%nat).
    assert (Hd : (d ≤ length (l ++ [e]))%nat) by (subst d; lia).
    rewrite <- (drop_app_le (l ++ [e]) es d) by done.
    rewrite drop_drop, <- app_assoc. simpl. f_equal.
    rewrite length_drop. subst d.
    rewrite !length_app in *. simpl in *. lia.
Qed.

Lemma getStreamLogs_addStreamLog streamId msg w :
  getStreamLogs streamId (addStreamLog streamId msg w) =
  push_bounded (mkLog (clock w) msg) (getStreamLogs streamId w).
Proof.
  unfold getStreamLogs, addStreamLog. simpl. by rewrite lookup_insert_eq.
Qed.

Lemma getStreamLogs_appendAll streamId lines w :
  getStreamLogs streamId (appendAll streamId lines w) =
  pushAll (map entryOf lines) (getStreamLogs streamId w).
Proof.
  unfold pushAll, appendAll. revert w.
  induction lines as [|[t m] lines IH]; intros w; simpl; [done|].
  rewrite IH. by rewrite getStreamLogs_addStreamLog.
Qed.

(** C9.  Once more than [MAX_LOG_LINES] lines have been appended to a
    session's buffer, the buffer holds exactly [MAX_LOG_LINES] entries, and
    they are the newest ones in the order in which they arrived: every
    eviction removed the oldest entry. *)
Theorem log_buffer_bound_fifo streamId lines w :
  (length (getStreamLogs streamId w) ≤ MAX_LOG_LINES)%nat →
  (MAX_LOG_LINES < length lines)%nat →
  let kept := getStreamLogs streamId (appendAll streamId lines w) in
  length kept = MAX_LOG_LINES ∧
  kept = drop (length lines - MAX_LOG_LINES) (map entryOf lines).
Proof.
  intros Hl Hn kept. subst kept.
  rewrite getStreamLogs_appendAll, pushAll_drop by done.
  set (old := getStreamLogs streamId w) in *.
  assert (Hm : length (map entryOf lines) = length lines) by apply length_map.
  replace (length (old ++ map entryOf lines) - MAX_LOG_LINES)%nat
    with (length old + (length lines - MAX_LOG_LINES))%nat
    by (rewrite length_app, Hm; lia).
  rewrite drop_app_add'; [|done].
  split; [|done].
  rewrite length_drop, Hm. lia.
Qed.

Lemma log_buffer_bound_fifo_witness :
  length (getStreamLogs "s1" (appendAll "s1" sampleLines (boot "s1"))) = MAX_LOG_LINES.
Proof.
  refine (proj1 (log_buffer_bound_fifo "s1" sampleLines (boot "s1") _ _)).
  - vm_compute. lia.
  - vm_compute. lia.
Defined.

End LogBuffer.

(** ** The resume position tracker *)

(** C6.  [calculateResumePosition] returns the stored base position plus the
    whole seconds elapsed since the recorded start time, clamped at zero;
    without a recorded start time it returns the stored base position, and 0
    when no base is stored either. *)
Theorem calculateResumePosition_spec streamId w :
  result (calculateResumePosition streamId) w =
  Returned (spec_computeResumePosition (streamBasePositions w !! streamId)
              (streamStartTimes w !! streamId) (clock w)).
Proof.
  unfold result, calculateResumePosition, spec_computeResumePosition, bind, gets.
  simpl. by destruct (streamStartTimes w !! streamId).
Qed.

Lemma calculateResumePosition_running streamId startedAt w :
  streamStartTimes w !! streamId = Some startedAt →
  let base := default 0 (streamBasePositions w !! streamId) in
  let pos := base + Z.max 0 ((clock w - startedAt) / 1000) in
  calculateResumePosition streamId w =
  (Returned pos,
   addStreamLog streamId (MsgCalculated base (Z.max 0 ((clock w - startedAt) / 1000)) pos)
     (set_streamVideoPositions <[streamId := pos]> w)).
Proof.
  intros Hs. unfold calculateResumePosition, bind, gets. simpl. by rewrite Hs.
Qed.

Lemma calculateResumePosition_idle streamId w :
  streamStartTimes w !! streamId = None →
  let base := default 0 (streamBasePositions w !! streamId) in
  calculateResumePosition streamId w =
  (Returned base, addStreamLog streamId (MsgNoStartTime base) w).
Proof.
  intros Hs. unfold calculateResumePosition, bind, gets. simpl. by rewrite Hs.
Qed.

(** ** Starting a stream *)

Ltac run_monad :=
  unfold exec, result, log, Stream_findById, Video_findById, fs_existsSync,
    Stream_updateStatus, scheduler, setTimeout, spawn, kill;
  unfold try_catch, bind, when, modify, gets, ret, throw;
  simpl.

Lemma startStream_not_found streamId resumePosition w :
  streams w !! streamId = None →
  startStream streamId resumePosition w =
  (Returned (StartFailed err_StreamNotFound),
   if truthy resumePosition then w else set_streamRetryCount (delete streamId) w).
Proof.
  intros Hs. unfold startStream. run_monad.
  destruct (truthy resumePosition); simpl; by rewrite Hs.
Qed.

Lemma startStream_video_missing streamId resumePosition s w :
  streams w !! streamId = Some s → videos w !! video_id s = None →
  startStream streamId resumePosition w =
  (Returned (StartFailed (err_VideoRecordMissing (video_id s))),
   addStreamLog streamId (MsgFailedToStart (err_VideoRecordMissing (video_id s)))
     (if truthy resumePosition then w else set_streamRetryCount (delete streamId) w)).
Proof.
  intros Hs Hv. unfold startStream, buildFFmpegArgs. run_monad.
  destruct (truthy resumePosition); simpl; rewrite Hs; simpl; by rewrite Hv.
Qed.

Lemma startStream_file_missing streamId resumePosition s v w :
  streams w !! streamId = Some s → videos w !! video_id s = Some v →
  relativeVideoPath (filepath v) ∉ disk w →
  startStream streamId resumePosition w =
  (Returned (StartFailed err_VideoFileMissing),
   addStreamLog streamId (MsgFailedToStart err_VideoFileMissing)
     (if truthy resumePosition then w else set_streamRetryCount (delete streamId) w)).
Proof.
  intros Hs Hv Hd. unfold startStream, buildFFmpegArgs. run_monad.
  destruct (truthy resumePosition); simpl; rewrite Hs; simpl; rewrite Hv; simpl;
    by rewrite bool_decide_eq_false_2.
Qed.

(** C10.  A start request without a resume position deletes the stored retry
    count before it looks anything up: when the request then fails because
    the stream record, the video record or the media file is missing, the
    caller gets a failure and the retry count of the stream is gone all the
    same. *)
Theorem failed_fresh_start_clears_retry_count streamId w :
  startPreconditionFails streamId w →
  (∃ error, result (startStream streamId None) w = Returned (StartFailed error)) ∧
  streamRetryCount (exec (startStream streamId None) w) !! streamId = None ∧
  (is_Some (streamRetryCount w !! streamId) → exec (startStream streamId None) w ≠ w).
Proof.
  intros Hfail.
  assert (Hcleared :
    streamRetryCount (exec (startStream streamId None) w) !! streamId = None).
  { unfold exec.
    destruct Hfail as [Hs | [(s & Hs & Hv) | (s & v & Hs & Hv & Hd)]].
    - rewrite startStream_not_found by done. simpl. apply lookup_delete_eq.
    - rewrite (startStream_video_missing _ _ s) by done. simpl. apply lookup_delete_eq.
    - rewrite (startStream_file_missing _ _ s v) by done. simpl. apply lookup_delete_eq. }
  split; [|split; [done|]].
  - unfold result.
    destruct Hfail as [Hs | [(s & Hs & Hv) | (s & v & Hs & Hv & Hd)]].
    + rewrite startStream_not_found by done. eauto.
    + rewrite (startStream_video_missing _ _ s) by done. eauto.
    + rewrite (startStream_file_missing _ _ s v) by done. eauto.
  - intros [n Hn] Heq. rewrite Heq in Hcleared. congruence.
Qed.

(** A stream with two retries on record whose row has been deleted. *)
Lemma failed_fresh_start_clears_retry_count_witness :
  let w := set_streamRetryCount <["s1" := 2]> (set_streams (delete "s1") (boot "s1")) in
  streamRetryCount w !! "s1" = Some 2 ∧
  streamRetryCount (exec (startStream "s1" None) w) !! "s1" = None.
Proof.
  intros w. split; [reflexivity|].
  refine (proj1 (proj2 (failed_fresh_start_clears_retry_count "s1" w _))).
  left. reflexivity.
Defined.

(** The deletion does not depend on the outcome: it also holds when the
    start goes through. *)
Lemma fresh_start_clears_retry_count streamId w :
  streamRetryCount (exec (startStream streamId None) w) !! streamId = None.
Proof.
  unfold startStream, buildFFmpegArgs. run_monad.
  repeat (case_match; simpl; simplify_eq); apply lookup_delete_eq.
Qed.

(** ** Stopping a stream that has no tracked process *)

(** C8.  Without a tracked process, [stopStream] answers "Stream is not
    active" and changes nothing when the durable status is not "live"; when
    the durable status is "live" it rewrites it to "offline", tells the
    termination scheduler, and reports success: no process is signalled and
    the registry is left as it was. *)
Theorem stopStream_without_process streamId w :
  activeStreams w !! streamId = None →
  (durableStatus streamId w ≠ Some "live" →
     stopStream streamId w = (Returned (StopFailed err_NotActive), w)) ∧
  (durableStatus streamId w = Some "live" →
     let w' := exec (stopStream streamId) w in
     result (stopStream streamId) w = Returned (Stopped msg_StatusFixed) ∧
     durableStatus streamId w' = Some "offline" ∧
     procs w' = procs w ∧
     w' = set_schedulerCalls (λ cs, cs ++ [StreamStopped streamId])
            (set_streams (alter (with_status "offline") streamId) w)).
Proof.
  intros Hidle. unfold durableStatus, stopStream. run_monad. rewrite Hidle.
  destruct (streams w !! streamId) as [s|] eqn:Hs; simpl.
  - case_bool_decide as Hlive; simpl.
    + split; [intros Hne; by rewrite Hlive in Hne|].
      intros _. rewrite lookup_alter_eq, Hs. done.
    + split; [done|]. intros [=]. done.
  - split; [done|]. intros [=].
Qed.

Lemma stopStream_without_process_witness :
  stopStream "s1" (boot "s1") = (Returned (StopFailed err_NotActive), boot "s1") ∧
  durableStatus "s1" (exec (stopStream "s1") firstErrorExit) = Some "offline".
Proof.
  split.
  - refine (proj1 (stopStream_without_process "s1" (boot "s1") _) _).
    + reflexivity.
    + vm_compute. discriminate.
  - refine (proj1 (proj2 (proj2 (stopStream_without_process "s1" firstErrorExit _) _))).
    + vm_compute. reflexivity.
    + vm_compute. reflexivity.
Defined.

(** ** Exit classification *)

Lemma handleStreamCrash_retry_eq streamId reason startedAt w :
  retryCountOf streamId w < MAX_RETRY_ATTEMPTS →
  streamStartTimes w !! streamId = Some startedAt →
  let rc := retryCountOf streamId w in
  let base := default 0 (streamBasePositions w !! streamId) in
  let elapsed := Z.max 0 ((clock w - startedAt) / 1000) in
  handleStreamCrash streamId reason w =
  (Returned tt,
   set_timers (λ ts, ts ++ [mkTimer 3000%Q (CrashRestart streamId (base + elapsed))])
     (addStreamLog streamId (MsgCalculated base elapsed (base + elapsed))
        (set_streamVideoPositions <[streamId := base + elapsed]>
           (addStreamLog streamId (MsgCrashed reason (rc + 1))
              (set_streamRetryCount <[streamId := rc + 1]> w))))).
Proof.
  intros Hrc Hs. unfold retryCountOf in *. unfold handleStreamCrash.
  unfold bind at 1, gets at 1. simpl.
  apply Z.ltb_lt in Hrc. rewrite Hrc.
  unfold bind at 1, modify at 1. unfold bind at 1, log at 1, modify at 1.
  unfold bind. by rewrite (calculateResumePosition_running _ startedAt).
Qed.

Lemma handleStreamCrash_retry streamId reason startedAt w :
  retryCountOf streamId w < MAX_RETRY_ATTEMPTS →
  streamStartTimes w !! streamId = Some startedAt →
  let pos := default 0 (streamBasePositions w !! streamId) +
             Z.max 0 ((clock w - startedAt) / 1000) in
  let w' := exec (handleStreamCrash streamId reason) w in
  timers w' = timers w ++ [mkTimer 3000%Q (CrashRestart streamId pos)] ∧
  retryCountOf streamId w' = retryCountOf streamId w + 1.
Proof.
  intros Hrc Hs. cbv zeta. unfold exec.
  rewrite (handleStreamCrash_retry_eq _ _ startedAt) by done.
  unfold retryCountOf. simpl. by rewrite lookup_insert_eq.
Qed.

Lemma handleStreamError_retry_eq streamId code signal startedAt w :
  retryCountOf streamId w < MAX_RETRY_ATTEMPTS →
  streamStartTimes w !! streamId = Some startedAt →
  let rc := retryCountOf streamId w in
  let base := default 0 (streamBasePositions w !! streamId) in
  let elapsed := Z.max 0 ((clock w - startedAt) / 1000) in
  handleStreamError streamId code signal w =
  (Returned tt,
   set_timers (λ ts, ts ++ [mkTimer (backoffDelay rc)
                              (ErrorRestart streamId (base + elapsed) rc)])
     (addStreamLog streamId (MsgScheduling (backoffDelay rc) (base + elapsed))
        (addStreamLog streamId (MsgCalculated base elapsed (base + elapsed))
           (set_streamVideoPositions <[streamId := base + elapsed]>
              (set_streamRetryCount <[streamId := rc + 1]>
                 (addStreamLog streamId (MsgExitedWithCode code) w)))))).
Proof.
  intros Hrc Hs. unfold retryCountOf in *. unfold handleStreamError.
  unfold bind at 1, log at 1, modify at 1. unfold bind at 1, gets at 1. simpl.
  apply Z.ltb_lt in Hrc. rewrite Hrc.
  unfold bind at 1, modify at 1.
  unfold bind. by rewrite (calculateResumePosition_running _ startedAt).
Qed.

Lemma handleStreamError_retry streamId code signal startedAt w :
  retryCountOf streamId w < MAX_RETRY_ATTEMPTS →
  streamStartTimes w !! streamId = Some startedAt →
  let pos := default 0 (streamBasePositions w !! streamId) +
             Z.max 0 ((clock w - startedAt) / 1000) in
  let w' := exec (handleStreamError streamId code signal) w in
  timers w' = timers w ++
    [mkTimer (backoffDelay (retryCountOf streamId w))
       (ErrorRestart streamId pos (retryCountOf streamId w))] ∧
  retryCountOf streamId w' = retryCountOf streamId w + 1.
Proof.
  intros Hrc Hs. cbv zeta. unfold exec.
  rewrite (handleStreamError_retry_eq _ _ _ startedAt) by done.
  unfold retryCountOf. simpl. by rewrite lookup_insert_eq.
Qed.

(** C7, as amended.  A termination by SIGSEGV that is not a manual stop is
    handed to the crash retry path with reason "SIGSEGV", whatever the exit
    code; while retries remain this schedules one restart three seconds
    later. *)
Theorem sigsegv_exit_takes_crash_path streamId code w :
  streamId ∉ manuallyStoppingStreams w →
  exec (onExit streamId code (Some "SIGSEGV")) w =
  exec (exitPrologue streamId code (Some "SIGSEGV");;
        handleStreamCrash streamId "SIGSEGV") w.
Proof.
  intros Hman. unfold onExit, exitPrologue. run_monad.
  by rewrite bool_decide_eq_false_2.
Qed.

Lemma sigsegv_exit_takes_crash_path_witness :
  exec (onExit "s1" None (Some "SIGSEGV")) running =
  exec (exitPrologue "s1" None (Some "SIGSEGV");; handleStreamCrash "s1" "SIGSEGV") running.
Proof.
  apply (sigsegv_exit_takes_crash_path "s1" None running).
  vm_compute. set_solver.
Defined.

(** C7, as stated, fails: a process killed by SIGBUS leaves through the
    clean-exit branch, and no restart is scheduled. *)
Lemma sigbus_exit_is_not_a_crash : ¬ everyFaultSignalIsCrash.
Proof.
  intros Hclaim.
  destruct (Hclaim running "s1" None "SIGBUS") as [reason Heq].
  - unfold faultSignals. set_solver.
  - vm_compute. set_solver.
  - apply (f_equal (λ w, length (timers w))) in Heq.
    vm_compute in Heq. discriminate.
Qed.

(** ** Retry delays *)

(** The delays the error path computes for the three retries of a session:
    the count it raises to the power is the one read before the increment. *)
Lemma backoffDelay_schedule :
  (backoffDelay 0 == 1500)%Q ∧ (backoffDelay 1 == 3000)%Q ∧ (backoffDelay 2 == 6000)%Q.
Proof. by vm_compute. Qed.

(** The delays of the documented schedule (3 s, 6 s, 12 s) are those of the
    incremented count. *)
Lemma backoffDelay_documented :
  (backoffDelay (0 + 1) == 3000)%Q ∧ (backoffDelay (1 + 1) == 6000)%Q ∧
  (backoffDelay (2 + 1) == 12000)%Q.
Proof. by vm_compute. Qed.

(** C3.  A fresh start whose process exits with code 1 after twelve seconds
    schedules exactly one restart, with resume position 12; its delay is
    1500 ms, not 3000 ms. *)
Theorem first_error_exit_retries_after_1500ms :
  timers firstErrorExit = [mkTimer (backoffDelay 0) (ErrorRestart "s1" 12 0)] ∧
  (backoffDelay 0 == 1500)%Q ∧ ¬ (backoffDelay 0 == 3000)%Q.
Proof. vm_compute. split; [done|]. split; [done|]. discriminate. Qed.

(** The crash path always waits three seconds. *)
Lemma crash_exit_retries_after_3000ms :
  timers (run (boot "s1") [(0, EvStart "s1" None); (12000, EvExit 0 None (Some "SIGSEGV"))])
  = [mkTimer 3000%Q (CrashRestart "s1" 12)].
Proof. by vm_compute. Qed.

(** ** Starting a stream that is already active *)

(** C1.  A second start request for a stream whose process is registered
    and running succeeds and spawns a second process: two encoder processes
    of the same stream are alive, and the registry has forgotten the first. *)
Theorem second_start_spawns_second_process :
  let w := set_clock 500 (run (boot "s1") [(0, EvStart "s1" None)]) in
  activeStreams w !! "s1" = Some 0%nat ∧
  result (startStream "s1" None) w = Returned (Started false false) ∧
  length (liveProcesses "s1" doubleStart) = 2%nat ∧
  activeStreams doubleStart !! "s1" = Some 1%nat.
Proof. by vm_compute. Qed.

(** The other copy of the service refuses such a request. *)
Lemma guarded_startStream_refuses_active streamId resumePosition w :
  is_Some (activeStreams w !! streamId) →
  result (GuardedRevision.startStream streamId resumePosition) w =
    Returned (StartFailed err_AlreadyActive) ∧
  procs (exec (GuardedRevision.startStream streamId resumePosition) w) = procs w.
Proof.
  intros Hact. unfold GuardedRevision.startStream. run_monad.
  destruct (truthy resumePosition); simpl; by rewrite bool_decide_eq_true_2.
Qed.

(** ** Manual stop while a retry is pending *)

(** C4, as stated, fails: after the first error exit of a fresh stream a
    stop request finds no tracked process and only repairs the durable
    status; the pending timer then fires, finds the row, and spawns. *)
Lemma stop_does_not_cancel_pending_retry : ¬ manualStopPrecedence firstErrorExit.
Proof.
  intros Hclaim.
  specialize (Hclaim 0%nat (mkTimer (backoffDelay 0) (ErrorRestart "s1" 12 0))
                12500 13500 eq_refl eq_refl).
  apply (f_equal length) in Hclaim. vm_compute in Hclaim. discriminate.
Qed.

(** What the sequence leaves behind: a live process and a "live" status. *)
Lemma restart_after_stop_outcome :
  let w := run firstErrorExit [(12500, EvStop "s1"); (13500, EvTimer 0)] in
  length (liveProcesses "s1" w) = 1%nat ∧ durableStatus "s1" w = Some "live".
Proof. by vm_compute. Qed.

(** C4, as amended.  The restart callback of a retry looks the stream's row
    up immediately before acting and does nothing when the row is gone: no
    process is spawned, the registry, the store and the timer queue stay as
    they are. *)
Theorem retry_aborts_when_record_deleted cb w :
  isRetry cb = true →
  streams w !! callbackStream cb = None →
  let w' := exec (runCallback cb) w in
  procs w' = procs w ∧ activeStreams w' = activeStreams w ∧
  streams w' = streams w ∧ timers w' = timers w ∧
  streamRetryCount w' = streamRetryCount w.
Proof.
  intros Hretry Hgone.
  destruct cb as [streamId pos | streamId pos rc | streamId pos]; [| |done];
    simpl in Hgone; unfold runCallback; run_monad; by rewrite Hgone.
Qed.

Lemma retry_aborts_when_record_deleted_witness :
  procs (exec (runCallback (ErrorRestart "s1" 12 0)) recordDeleted) = procs recordDeleted.
Proof.
  refine (proj1 (retry_aborts_when_record_deleted (ErrorRestart "s1" 12 0) recordDeleted _ _)).
  - reflexivity.
  - vm_compute. reflexivity.
Defined.

(** ** The retry budget *)

(** C5.  A stream whose process exits with code 1 half a second after each
    launch is restarted a fourth time: every retry passes resume position 0,
    which the start routine takes for a fresh start and answers by deleting
    the retry count.  After four failures five processes have been spawned,
    the last one is running, and the status is "live". *)
Theorem quick_failures_retry_beyond_budget :
  length (procs (failingAtOnce 4)) = 5%nat ∧
  length (liveProcesses "s1" (failingAtOnce 4)) = 1%nat ∧
  durableStatus "s1" (failingAtOnce 4) = Some "live" ∧
  retryCountOf "s1" (failingAtOnce 4) = 0.
Proof. by vm_compute. Qed.

(** ** Cumulative resume positions *)

(** C2, as stated, fails: a fresh start of a stream whose earlier session
    left a base position of 100 behind starts at 0, runs fifty seconds,
    crashes, and is resumed at 150. *)
Lemma stale_base_breaks_cumulative_resume :
  ¬ cumulativeResume afterCleanExit "s1" None 300000
      [mkCycle 50000 None (Some "SIGSEGV") 3000].
Proof.
  intros Hclaim.
  destruct (Hclaim 0%nat (mkCycle 50000 None (Some "SIGSEGV") 3000) 0 150) as [Heq _].
  - reflexivity.
  - simpl. lia.
  - by vm_compute.
  - by vm_compute.
  - vm_compute in Heq. discriminate.
Qed.

Lemma startStream_outcome streamId resumePosition w :
  let w' := exec (startStream streamId resumePosition) w in
  timers w' = timers w ∧
  ((∃ e, result (startStream streamId resumePosition) w = Returned (StartFailed e) ∧
         procs w' = procs w) ∨
   (∃ o adv, result (startStream streamId resumePosition) w =
               Returned (Started adv (truthy resumePosition)) ∧
      procs w' = procs w ++ [mkProc streamId o true []] ∧
      opt_resumePosition o = or_zero resumePosition ∧
      streamStartTimes w' !! streamId = Some (clock w) ∧
      default 0 (streamBasePositions w' !! streamId) =
        if positive resumePosition then or_zero resumePosition
        else if bool_decide (is_Some (streamVideoPositions w !! streamId))
             then default 0 (streamBasePositions w !! streamId) else 0)).
Proof.
  cbv zeta. unfold startStream, buildFFmpegArgs. run_monad.
  repeat (case_match; simpl in *; simplify_eq).
  all: repeat match goal with
       | H : negb _ = true |- _ => apply negb_true_iff in H
       | H : negb _ = false |- _ => apply negb_false_iff in H
       end.
  all: try congruence.
  all: try solve [split; [done|left; eauto]].
  all: try solve [split; [done|right; do 2 eexists; repeat split; rewrite ?lookup_insert_eq; done]].
Qed.

Lemma handleStreamCrash_exhausted_eq streamId reason w :
  ¬ retryCountOf streamId w < MAX_RETRY_ATTEMPTS →
  handleStreamCrash streamId reason w =
  (Returned tt,
   set_streams (alter (with_status "offline") streamId)
     (addStreamLog streamId MsgMaxRetries w)).
Proof.
  intros Hrc. unfold retryCountOf in *. unfold handleStreamCrash.
  unfold bind at 1, gets at 1. simpl.
  apply Z.ltb_nlt in Hrc. by rewrite Hrc.
Qed.

Lemma handleStreamError_exhausted_eq streamId code signal w :
  ¬ retryCountOf streamId w < MAX_RETRY_ATTEMPTS →
  handleStreamError streamId code signal w =
  (Returned tt,
   set_streams (alter (with_status "offline") streamId)
     (addStreamLog streamId MsgMaxRetries
        (addStreamLog streamId (MsgExitedWithCode code) w))).
Proof.
  intros Hrc. unfold retryCountOf in *. unfold handleStreamError.
  unfold bind at 1, log at 1, modify at 1. unfold bind at 1, gets at 1. simpl.
  apply Z.ltb_nlt in Hrc. by rewrite Hrc.
Qed.

Lemma handleStreamCrash_outcome streamId reason startedAt w :
  streamStartTimes w !! streamId = Some startedAt →
  let w' := exec (handleStreamCrash streamId reason) w in
  procs w' = procs w ∧ (timers w' = timers w ∨ retryScheduled streamId startedAt w w').
Proof.
  intros Hs. cbv zeta. unfold exec.
  destruct (decide (retryCountOf streamId w < MAX_RETRY_ATTEMPTS)) as [Hrc|Hrc].
  - rewrite (handleStreamCrash_retry_eq _ _ startedAt) by done. simpl.
    split; [done|]. right. do 2 eexists. simpl.
    repeat split; rewrite ?lookup_insert_eq; eauto.
  - rewrite handleStreamCrash_exhausted_eq by done. simpl. auto.
Qed.

Lemma handleStreamError_outcome streamId code signal startedAt w :
  streamStartTimes w !! streamId = Some startedAt →
  let w' := exec (handleStreamError streamId code signal) w in
  procs w' = procs w ∧ (timers w' = timers w ∨ retryScheduled streamId startedAt w w').
Proof.
  intros Hs. cbv zeta. unfold exec.
  destruct (decide (retryCountOf streamId w < MAX_RETRY_ATTEMPTS)) as [Hrc|Hrc].
  - rewrite (handleStreamError_retry_eq _ _ _ startedAt) by done. simpl.
    split; [done|]. right. do 2 eexists. simpl.
    repeat split; rewrite ?lookup_insert_eq; eauto.
  - rewrite handleStreamError_exhausted_eq by done. simpl. auto.
Qed.

Lemma onExit_outcome streamId code signal startedAt w :
  streamStartTimes w !! streamId = Some startedAt →
  let w' := exec (onExit streamId code signal) w in
  procs w' = procs w ∧ (timers w' = timers w ∨ retryScheduled streamId startedAt w w').
Proof.
  intros Hs. cbv zeta.
  set (w2 := set_activeStreams (delete streamId)
               (addStreamLog streamId (MsgEnded code signal) w)).
  assert (Hs2 : streamStartTimes w2 !! streamId = Some startedAt) by done.
  pose proof (handleStreamCrash_outcome streamId "SIGSEGV" startedAt w2 Hs2) as Hcrash.
  unfold onExit. run_monad. fold w2.
  destruct (bool_decide (streamId ∈ manuallyStoppingStreams w)); simpl.
  { destruct (bool_decide (is_Some (activeStreams w !! streamId))); simpl; auto. }
  destruct (bool_decide (signal = Some "SIGSEGV")); simpl.
  { exact Hcrash. }
  destruct code as [c|]; simpl.
  - destruct (negb (c =? 0)); simpl.
    + exact (handleStreamError_outcome streamId c signal startedAt w2 Hs2).
    + destruct (bool_decide (is_Some (activeStreams w !! streamId))); simpl; auto.
  - destruct (bool_decide (is_Some (activeStreams w !! streamId))); simpl; auto.
Qed.


Lemma startStream_some_outcome streamId pos w r w' :
  startStream streamId (Some pos) w = (r, w') →
  timers w' = timers w ∧
  ((∃ e, r = Returned (StartFailed e) ∧ procs w' = procs w) ∨
   (∃ adv res, r = Returned (Started adv res) ∧ restarted streamId pos w w')).
Proof.
  intros Hst.
  destruct (startStream_outcome streamId (Some pos) w) as [Ht Hcases].
  unfold exec, result in *. rewrite Hst in *. simpl in *.
  split; [done|].
  destruct Hcases as [(e & -> & Hp) | (o & adv & -> & Hp & Ho & Hs & Hb)].
  - left. eauto.
  - right. exists adv, (negb (pos =? 0)). split; [done|]. by exists o.
Qed.

Lemma runCallback_outcome cb w :
  isRetry cb = true →
  let w' := exec (runCallback cb) w in
  timers w' = timers w ∧
  (procs w' = procs w ∨ restarted (callbackStream cb) (callbackPosition cb) w w').
Proof.
  intros Hretry. cbv zeta.
  destruct cb as [streamId pos | streamId pos rc | streamId pos]; [| |done]; simpl.
  - unfold runCallback. run_monad.
    destruct (streams w !! streamId); simpl; [|auto].
    destruct (startStream streamId (Some pos) w) as [r w1] eqn:Hst.
    destruct (startStream_some_outcome _ _ _ _ _ Hst)
      as [Ht [(e & -> & Hp) | (adv & res & -> & Hre)]]; simpl; auto.
  - unfold runCallback. run_monad.
    destruct (streams w !! streamId); simpl; [|auto].
    destruct (startStream streamId (Some pos)
                (addStreamLog streamId (MsgAttempting (rc + 1)) w)) as [r w1] eqn:Hst.
    destruct (startStream_some_outcome _ _ _ _ _ Hst)
      as [Ht [(e & -> & Hp) | (adv & res & -> & Hre)]]; simpl; auto.
Qed.

Lemma resumePositions_exited pid w :
  resumePositions (set_procs (alter exited pid) w) = resumePositions w.
Proof.
  unfold resumePositions. simpl. generalize (procs w). intros ps. revert pid.
  induction ps as [|p ps IH]; intros [|pid]; simpl; try done.
  f_equal. apply IH.
Qed.

Lemma delete_last {A} (l : list A) (x : A) : delete (length l) (l ++ [x]) = l.
Proof. induction l as [|y l IH]; simpl; [done|]. by f_equal. Qed.

Lemma timer_noop slot t w :
  (length (timers w) ≤ slot)%nat →
  step w (t, EvTimer slot) = set_clock t w.
Proof.
  intros Hlen. unfold step, dispatch. run_monad.
  by rewrite lookup_ge_None_2.
Qed.

Lemma exit_noop pid t code signal w :
  (length (procs w) ≤ pid)%nat →
  step w (t, EvExit pid code signal) = set_clock t w.
Proof.
  intros Hlen. unfold step, dispatch, on_process. run_monad.
  by rewrite lookup_ge_None_2.
Qed.

Lemma cycle_step streamId slot pid startedAt seek c w :
  Running streamId slot pid startedAt seek w →
  let exitAt := startedAt + c_elapsed c in
  let fireAt := exitAt + c_wait c in
  let b := seek + Z.max 0 (c_elapsed c / 1000) in
  let w' := run w [(exitAt, EvExit pid (c_code c) (c_signal c)); (fireAt, EvTimer slot)] in
  (resumePositions w' = resumePositions w ∧ Halted slot (S pid) w') ∨
  (resumePositions w' = resumePositions w ++ [b] ∧ Running streamId slot (S pid) fireAt b w').
Proof.
  intros (Hlen & (p & Hp & Hid & Hrun) & Hs & Hb & Hseek & Hslot). cbv zeta.
  set (exitAt := startedAt + c_elapsed c). set (fireAt := exitAt + c_wait c).
  set (w2 := set_procs (alter exited pid) (set_clock exitAt w)).
  assert (Hstep1 : step w (exitAt, EvExit pid (c_code c) (c_signal c)) =
                   exec (onExit streamId (c_code c) (c_signal c)) w2).
  { unfold step, dispatch, on_process. run_monad.
    rewrite Hp. simpl. rewrite Hrun. simpl. by rewrite Hid. }
  assert (Hs2 : streamStartTimes w2 !! streamId = Some startedAt) by done.
  destruct (onExit_outcome streamId (c_code c) (c_signal c) startedAt w2 Hs2)
    as [Hprocs Htimers].
  unfold run. simpl fold_left. rewrite Hstep1.
  set (w3 := exec (onExit streamId (c_code c) (c_signal c)) w2) in *.
  assert (Hpos3 : resumePositions w3 = resumePositions w).
  { unfold resumePositions at 1. rewrite Hprocs.
    apply (resumePositions_exited pid (set_clock exitAt w)). }
  assert (Hlen3 : length (procs w3) = S pid).
  { rewrite Hprocs. subst w2. simpl. by rewrite length_alter. }
  destruct Htimers as [Htimers | (d & cb & Htimers & Hretry & Hcb & Hcbpos & Hbase & Hvid)].
  - left. rewrite timer_noop by (rewrite Htimers; subst w2; simpl; lia).
    split; [done|]. split; simpl; [lia|]. rewrite Htimers. subst w2. simpl. lia.
  - set (w5 := set_timers (delete slot) (set_clock fireAt w3)).
    assert (Hstep2 : step w3 (fireAt, EvTimer slot) = exec (runCallback cb) w5).
    { unfold step, dispatch. run_monad. rewrite Htimers.
      subst w2. simpl. by rewrite list_lookup_middle by (by symmetry). }
    rewrite Hstep2.
    assert (Ht5 : timers w5 = timers w).
    { subst w5. simpl. rewrite Htimers. subst w2. simpl. rewrite <- Hslot.
      apply delete_last. }
    destruct (runCallback_outcome cb w5 Hretry) as [Ht6 Hprocs6].
    set (w6 := exec (runCallback cb) w5) in *.
    destruct Hprocs6 as [Hsame | (o & Hnew & Ho & Hstart & Hbase6)].
    + left. split.
      * unfold resumePositions. rewrite Hsame. exact Hpos3.
      * split; [rewrite Hsame; simpl; lia|]. rewrite Ht6, Ht5. lia.
    + right.
      assert (Hcbpos' : callbackPosition cb = seek + Z.max 0 (c_elapsed c / 1000)).
      { rewrite Hcbpos. subst w2. simpl. rewrite Hb. subst exitAt.
        by replace (startedAt + c_elapsed c - startedAt) with (c_elapsed c) by lia. }
      split.
      * unfold resumePositions. rewrite Hnew. rewrite map_app. simpl.
        rewrite Ho, Hcbpos'. f_equal. exact Hpos3.
      * rewrite Hcb in *.
        split; [rewrite Hnew, length_app; simpl in *; lia|].
        split.
        { exists (mkProc streamId o true []). split; [|done]. rewrite Hnew. simpl.
          by rewrite list_lookup_middle by done. }
        split; [exact Hstart|].
        split; [|split; [lia|by rewrite Ht6, Ht5]].
        rewrite Hbase6. simpl. rewrite bool_decide_eq_true_2 by done.
        rewrite Hbase. subst w2. simpl. rewrite Hb.
        destruct (0 <? callbackPosition cb) eqn:Hsign; [done|].
        apply Z.ltb_ge in Hsign. lia.
Qed.

Lemma cycles_halted slot cs pid startedAt w :
  Halted slot pid w →
  resumePositions (run w (crashCycles slot pid startedAt cs)) = resumePositions w.
Proof.
  revert pid startedAt w.
  induction cs as [|c cs IH]; intros pid startedAt w [Hp Ht]; [done|].
  unfold run in *. simpl.
  rewrite exit_noop by done. rewrite timer_noop by done.
  rewrite IH; [done|]. split; simpl; lia.
Qed.

Lemma cycles_running streamId slot cs pid startedAt seek w :
  Running streamId slot pid startedAt seek w →
  ∃ l, resumePositions (run w (crashCycles slot pid startedAt cs)) =
         resumePositions w ++ l ∧ chained seek cs l.
Proof.
  revert pid startedAt seek w.
  induction cs as [|c cs IH]; intros pid startedAt seek w Hrun.
  { exists []. by rewrite app_nil_r. }
  destruct (cycle_step _ _ _ _ _ c _ Hrun) as [[Hpos Hhalt] | [Hpos Hnext]].
  - exists []. split; [|done]. rewrite app_nil_r, <- Hpos.
    apply (cycles_halted slot cs (S pid)), Hhalt.
  - destruct (IH _ _ _ _ Hnext) as (l & Hl & Hchain).
    exists ((seek + Z.max 0 (c_elapsed c / 1000)) :: l). split; [|done].
    change (crashCycles slot pid startedAt (c :: cs)) with
      ([(startedAt + c_elapsed c, EvExit pid (c_code c) (c_signal c));
        (startedAt + c_elapsed c + c_wait c, EvTimer slot)] ++
       crashCycles slot (S pid) (startedAt + c_elapsed c + c_wait c) cs).
    unfold run in *. rewrite fold_left_app, Hl, Hpos. by rewrite <- app_assoc.
Qed.

Lemma chained_lookup seek cs l k c a b :
  chained seek cs l →
  cs !! k = Some c → (seek :: l) !! k = Some a → (seek :: l) !! S k = Some b →
  b = a + Z.max 0 (c_elapsed c / 1000).
Proof.
  revert seek cs k. induction l as [|b0 l IH]; intros seek cs k Hchain Hc Ha Hb.
  { by destruct k. }
  destruct cs as [|c0 cs]; [done|]. destruct Hchain as [Hb0 Hchain].
  destruct k as [|k]; simpl in *.
  - by simplify_eq.
  - by apply (IH b0 cs k).
Qed.

(** C2, as amended.  For a stream started with a positive resume position,
    or started without one while no base position above 0 is stored for it,
    and then put through any sequence of crash-and-retry cycles: the resume
    position given to instance [k + 1] is the one given to instance [k] plus
    the whole seconds instance [k] ran, and it never decreases. *)
Theorem cumulative_resume_positions w0 streamId resumePosition startedAt cs :
  positive resumePosition = true ∨
    (or_zero resumePosition = 0 ∧ default 0 (streamBasePositions w0 !! streamId) = 0) →
  cumulativeResume w0 streamId resumePosition startedAt cs.
Proof.
  intros Hinit k c a b Hc He. simpl.
  set (w1 := step w0 (startedAt, EvStart streamId resumePosition)).
  set (n0 := length (procs w0)). set (slot := length (timers w0)).
  assert (Hw1 : w1 = exec (startStream streamId resumePosition) (set_clock startedAt w0)).
  { subst w1. unfold step, dispatch, exec, bind. simpl.
    by destruct (startStream _ _ _) as [[?|?] ?]. }
  assert (Hn0 : length (resumePositions w0) = n0) by apply length_map.
  destruct (startStream_outcome streamId resumePosition (set_clock startedAt w0))
    as [Ht [(e & _ & Hp) | (o & adv & _ & Hp & Ho & Hs & Hb)]]; rewrite <- Hw1 in *.
  - rewrite cycles_halted by (split; [rewrite Hp|rewrite Ht]; simpl; done).
    unfold resumePositions at 1 2. rewrite Hp. simpl.
    fold (resumePositions w0). rewrite drop_ge by lia. done.
  - assert (Hrun : Running streamId slot n0 startedAt (or_zero resumePosition) w1).
    { split; [rewrite Hp, length_app; simpl; lia|].
      split. { exists (mkProc streamId o true []). split; [|done].
               rewrite Hp. simpl. by rewrite list_lookup_middle by done. }
      split; [done|]. split; [|split; [|by rewrite Ht]].
      - rewrite Hb. simpl.
        destruct Hinit as [-> | [Hz Hb0]]; [done|].
        destruct (positive resumePosition); [done|]. rewrite Hz.
        by destruct (bool_decide _).
      - destruct Hinit as [Hpos | [-> _]]; [|done].
        destruct resumePosition as [r|]; [|done]. simpl in *.
        apply Z.ltb_lt in Hpos. lia. }
    destruct (cycles_running _ _ cs _ _ _ _ Hrun) as (l & -> & Hchain).
    unfold resumePositions at 1 2. rewrite Hp, map_app. simpl.
    fold (resumePositions w0). rewrite Ho, <- app_assoc. simpl.
    rewrite <- Hn0, drop_app_length. intros Ha Hb'.
    rewrite (chained_lookup _ _ _ _ _ _ _ Hchain Hc Ha Hb').
    assert (0 ≤ c_elapsed c / 1000) by (apply Z.div_pos; lia). lia.
Qed.

Lemma cumulative_resume_positions_witness :
  cumulativeResume (boot "s1") "s1" None 0 sampleCycles ∧
  resumePositions (run (boot "s1") ((0, EvStart "s1" None) :: crashCycles 0 0 0 sampleCycles))
  = [0; 12; 42; 43].
Proof.
  split.
  - apply (cumulative_resume_positions (boot "s1") "s1" None 0 sampleCycles).
    right. split; reflexivity.
  - vm_compute. reflexivity.
Defined.

(** ** Invariants kept by every handler *)

Section Preservation.

Context {A B : Type} (I : World → Prop).

Lemma preserves_ret (a : A) : preserves I (ret a).
Proof. by intros w Hw. Qed.

Lemma preserves_throw e : preserves I (throw (A := A) e).
Proof. by intros w Hw. Qed.

Lemma preserves_gets (f : World → A) : preserves I (gets f).
Proof. by intros w Hw. Qed.

Lemma preserves_modify f : (∀ w, I w → I (f w)) → preserves I (modify f).
Proof. intros Hf w Hw. by apply Hf. Qed.

Lemma preserves_bind (m : M A) (k : A → M B) :
  preserves I m → (∀ a, preserves I (k a)) → preserves I (bind m k).
Proof.
  intros Hm Hk w Hw. rewrite exec_bind.
  specialize (Hm w Hw). unfold exec in Hm.
  destruct (m w) as [[a|e] w']; simpl in *; [by apply Hk|done].
Qed.

Lemma preserves_try_catch (m : M A) (h : string → M A) :
  preserves I m → (∀ e, preserves I (h e)) → preserves I (try_catch m h).
Proof.
  intros Hm Hh w Hw. unfold exec, try_catch.
  specialize (Hm w Hw). unfold exec in Hm.
  destruct (m w) as [[a|e] w']; simpl in *; [done|by apply Hh].
Qed.

Lemma preserves_when b (m : M unit) : preserves I m → preserves I (when b m).
Proof. intros Hm. destruct b; [done|]. by intros w Hw. Qed.

End Preservation.

Create HintDb preserve.

Ltac preserve_step :=
  lazymatch goal with
  | |- preserves _ (bind _ _) => apply preserves_bind; [|intros ?]
  | |- preserves _ (try_catch _ _) => apply preserves_try_catch; [|intros ?]
  | |- preserves _ (ret _) => apply preserves_ret
  | |- preserves _ (throw _) => apply preserves_throw
  | |- preserves _ (gets _) => apply preserves_gets
  | |- preserves _ (when _ _) => apply preserves_when
  | |- preserves _ (modify _) => apply preserves_modify; eauto with preserve
  | |- preserves _ (if ?b then _ else _) => destruct b eqn:?
  | |- preserves _ (match ?x with _ => _ end) => destruct x eqn:?
  | |- preserves _ _ => solve [eauto with preserve]
  end.

Ltac preserve := cbv zeta; repeat preserve_step.

Section Handlers.

Variable I : World → Prop.
Hypothesis I_activeStreams : ∀ f w, I w → I (set_activeStreams f w).
Hypothesis I_streamStartTimes : ∀ f w, I w → I (set_streamStartTimes f w).
Hypothesis I_streamVideoPositions : ∀ f w, I w → I (set_streamVideoPositions f w).
Hypothesis I_streamBasePositions : ∀ f w, I w → I (set_streamBasePositions f w).
Hypothesis I_manuallyStoppingStreams : ∀ f w, I w → I (set_manuallyStoppingStreams f w).
Hypothesis I_streams : ∀ f w, I w → I (set_streams f w).
Hypothesis I_procs : ∀ f w, I w → I (set_procs f w).
Hypothesis I_timers : ∀ f w, I w → I (set_timers f w).
Hypothesis I_schedulerCalls : ∀ f w, I w → I (set_schedulerCalls f w).
Hypothesis I_clock : ∀ t w, I w → I (set_clock t w).
Hypothesis I_addStreamLog : ∀ streamId msg w, I w → I (addStreamLog streamId msg w).
Hypothesis I_dropLogs : ∀ streamId w, I w → I (set_streamLogs (delete streamId) w).
Hypothesis I_dropRetryCount :
  ∀ streamId w, I w → I (set_streamRetryCount (delete streamId) w).
Hypothesis I_countRetry :
  ∀ streamId n w, n < MAX_RETRY_ATTEMPTS → I w →
    I (set_streamRetryCount <[streamId := n + 1]> w).

Local Hint Resolve I_activeStreams I_streamStartTimes I_streamVideoPositions
  I_streamBasePositions I_manuallyStoppingStreams I_streams I_procs I_timers
  I_schedulerCalls I_clock I_addStreamLog I_dropLogs I_dropRetryCount : preserve.

Lemma log_preserves streamId msg : preserves I (log streamId msg).
Proof. unfold log. preserve. Qed.
Local Hint Resolve log_preserves : preserve.

Lemma Stream_findById_preserves id : preserves I (Stream_findById id).
Proof. unfold Stream_findById. preserve. Qed.

Lemma Stream_updateStatus_preserves id st : preserves I (Stream_updateStatus id st).
Proof. unfold Stream_updateStatus. preserve. Qed.

Lemma scheduler_preserves c : preserves I (scheduler c).
Proof. unfold scheduler. preserve. Qed.

Lemma setTimeout_preserves cb d : preserves I (setTimeout cb d).
Proof. unfold setTimeout. preserve. Qed.

Lemma spawn_preserves id o : preserves I (spawn id o).
Proof. unfold spawn. preserve. Qed.

Lemma kill_preserves pid sig : preserves I (kill pid sig).
Proof. unfold kill. preserve. Qed.

Local Hint Resolve Stream_findById_preserves Stream_updateStatus_preserves
  scheduler_preserves setTimeout_preserves spawn_preserves kill_preserves : preserve.

Lemma buildFFmpegArgs_preserves id s r : preserves I (buildFFmpegArgs id s r).
Proof. unfold buildFFmpegArgs, Video_findById, fs_existsSync. preserve. Qed.
Local Hint Resolve buildFFmpegArgs_preserves : preserve.

Lemma startStream_preserves id r : preserves I (startStream id r).
Proof. unfold startStream. preserve. Qed.
Local Hint Resolve startStream_preserves : preserve.

Lemma calculateResumePosition_preserves id : preserves I (calculateResumePosition id).
Proof. unfold calculateResumePosition. preserve. Qed.
Local Hint Resolve calculateResumePosition_preserves : preserve.

Lemma handleStreamCrash_preserves id reason : preserves I (handleStreamCrash id reason).
Proof.
  unfold handleStreamCrash. preserve.
  apply preserves_modify. intros w Hw. apply I_countRetry; [|done]. by apply Z.ltb_lt.
Qed.

Lemma handleStreamError_preserves id code signal :
  preserves I (handleStreamError id code signal).
Proof.
  unfold handleStreamError. preserve.
  apply preserves_modify. intros w Hw. apply I_countRetry; [|done]. by apply Z.ltb_lt.
Qed.
Local Hint Resolve handleStreamCrash_preserves handleStreamError_preserves : preserve.

Lemma runCallback_preserves cb : preserves I (runCallback cb).
Proof. unfold runCallback. preserve. Qed.

Lemma onExit_preserves id code signal : preserves I (onExit id code signal).
Proof. unfold onExit. preserve. Qed.

Lemma onError_preserves id text : preserves I (onError id text).
Proof. unfold onError. preserve. Qed.

Lemma onStdout_preserves id text : preserves I (onStdout id text).
Proof. unfold onStdout. preserve. Qed.

Lemma onStderr_preserves id text : preserves I (onStderr id text).
Proof. unfold onStderr. preserve. Qed.

Lemma cleanupStreamData_preserves id : preserves I (cleanupStreamData id).
Proof. unfold cleanupStreamData. preserve. Qed.
Local Hint Resolve cleanupStreamData_preserves : preserve.

Lemma stopStream_preserves id : preserves I (stopStream id).
Proof. unfold stopStream. preserve. Qed.

Lemma checkStreamHealth_preserves id : preserves I (checkStreamHealth id).
Proof. unfold checkStreamHealth. preserve. Qed.

Local Hint Resolve runCallback_preserves onExit_preserves onError_preserves
  onStdout_preserves onStderr_preserves stopStream_preserves
  checkStreamHealth_preserves : preserve.

Lemma dispatch_preserves e : preserves I (dispatch e).
Proof. unfold dispatch, on_process. preserve. Qed.

Lemma step_preserves w te : I w → I (step w te).
Proof. intros Hw. unfold step. apply dispatch_preserves. by apply I_clock. Qed.

Lemma run_preserves trace w : I w → I (run w trace).
Proof.
  revert w. induction trace as [|te trace IH]; intros w Hw; [done|].
  apply IH. by apply step_preserves.
Qed.

End Handlers.

(** The part of the retry bound that holds on every run: no stored retry
    count ever exceeds [MAX_RETRY_ATTEMPTS]. *)
Lemma retryCountsBounded_run trace w :
  retryCountsBounded w → retryCountsBounded (run w trace).
Proof.
  apply run_preserves; try done.
  - intros streamId w0 Hw id n Hn. simpl in Hn.
    apply lookup_delete_Some in Hn as [_ Hn]. by apply (Hw id).
  - intros streamId rc w0 Hrc Hw id n Hn. simpl in Hn.
    apply lookup_insert_Some in Hn as [[_ <-] | [_ Hn]]; [lia|by apply (Hw id)].
Qed.

Lemma retryCountsBounded_boot streamId trace :
  retryCountsBounded (run (boot streamId) trace).
Proof. apply retryCountsBounded_run. intros id n Hn. by simpl in Hn. Qed.

(** The buffers stay within [MAX_LOG_LINES] on every run. *)
Lemma logsBounded_run trace w : logsBounded w → logsBounded (run w trace).
Proof.
  apply run_preserves; try done.
  - intros streamId msg w0 Hw id l Hl. unfold addStreamLog in Hl. simpl in Hl.
    apply lookup_insert_Some in Hl as [[_ <-] | [_ Hl]]; [|by apply (Hw id)].
    apply push_bounded_length.
    destruct (streamLogs w0 !! streamId) as [l0|] eqn:Hl0; simpl.
    + by apply (Hw streamId).
    + unfold MAX_LOG_LINES. lia.
  - intros streamId w0 Hw id l Hl. simpl in Hl.
    apply lookup_delete_Some in Hl as [_ Hl]. by apply (Hw id).
Qed.

(** Once the count has reached the maximum, a further failure of either
    kind schedules nothing and writes "offline" to the stream's row. *)
Lemma exhausted_failure_goes_offline streamId reason code signal w :
  ¬ retryCountOf streamId w < MAX_RETRY_ATTEMPTS →
  let wc := exec (handleStreamCrash streamId reason) w in
  let we := exec (handleStreamError streamId code signal) w in
  timers wc = timers w ∧ timers we = timers w ∧
  streamRetryCount wc = streamRetryCount w ∧ streamRetryCount we = streamRetryCount w ∧
  (is_Some (streams w !! streamId) →
     durableStatus streamId wc = Some "offline" ∧ durableStatus streamId we = Some "offline").
Proof.
  intros Hrc. cbv zeta. unfold exec, durableStatus.
  rewrite handleStreamCrash_exhausted_eq, handleStreamError_exhausted_eq by done.
  simpl. repeat split; try done; destruct H as [s Hs];
    by rewrite lookup_alter_eq, Hs.
Qed.

(** The start routine never consults the registry: a valid request succeeds
    and adds a running process whether or not one is registered. *)
Lemma startStream_ignores_registry streamId resumePosition w :
  startable streamId w →
  let w' := exec (startStream streamId resumePosition) w in
  (∃ adv, result (startStream streamId resumePosition) w =
            Returned (Started adv (truthy resumePosition))) ∧
  ∃ o, procs w' = procs w ++ [mkProc streamId o true []].
Proof.
  intros (s & v & Hs & Hv & Hd). cbv zeta.
  destruct (startStream_outcome streamId resumePosition w) as [_ Hcases].
  destruct Hcases as [(e & Hres & _) | (o & adv & Hres & Hp & _)]; [|eauto].
  exfalso. revert Hres. unfold startStream, buildFFmpegArgs. run_monad.
  destruct (truthy resumePosition); simpl; rewrite Hs; simpl; rewrite Hv; simpl;
    rewrite bool_decide_eq_true_2 by done; simpl;
    repeat (case_match; simpl in *; simplify_eq); by intros [=].
Qed.

(** * Further properties of the service *)

(** ** Stopping a registered stream *)

Lemma alter_absent {A} (f : A → A) (m : gmap string A) i :
  m !! i = None → alter f i m = m.
Proof. intros Hi. apply alter_id. intros x Hx. congruence. Qed.

Lemma stopStream_registered_eq streamId pid w :
  activeStreams w !! streamId = Some pid →
  stopStream streamId w =
  (Returned (Stopped msg_Stopped),
   set_schedulerCalls (λ cs, cs ++ [StreamStopped streamId])
     (set_streams (alter (with_status "offline") streamId)
        (set_streamLogs (delete streamId)
           (set_streamRetryCount (delete streamId)
              (set_streamBasePositions (delete streamId)
                 (set_streamVideoPositions (delete streamId)
                    (set_streamStartTimes (delete streamId)
                       (set_activeStreams (delete streamId)
                          (set_procs (alter (signalled "SIGTERM") pid)
                             (set_manuallyStoppingStreams (λ s, s ∪ {[streamId]})
                                (addStreamLog streamId MsgStopping w))))))))))).
Proof.
  intros Hreg. unfold stopStream, cleanupStreamData. run_monad. rewrite Hreg. simpl.
  destruct (streams w !! streamId) as [s|] eqn:Hs; simpl; [done|].
  f_equal. unfold set_schedulerCalls, set_streams. simpl.
  by rewrite alter_absent.
Qed.



(** X2.  Stopping one stream leaves every other stream as it was: its
    tracking data, its durable status, and every process except the one
    registered for the stopped stream. *)
Theorem stopStream_other_streams streamId other w :
  other ≠ streamId →
  let w' := exec (stopStream streamId) w in
  tracking other w' = tracking other w ∧
  durableStatus other w' = durableStatus other w ∧
  (∀ pid, activeStreams w !! streamId ≠ Some pid → procs w' !! pid = procs w !! pid).
Proof.
  intros Hne. cbv zeta.
  destruct (activeStreams w !! streamId) as [pid|] eqn:Hreg.
  - unfold exec, tracking, getStreamLogs, durableStatus.
    rewrite (stopStream_registered_eq _ pid) by done. simpl.
    rewrite !lookup_delete_ne by done. rewrite lookup_alter_ne by done.
    rewrite lookup_insert_ne by done.
    split; [|split; [done|]].
    + repeat f_equal. apply bool_decide_ext.
      rewrite elem_of_union, elem_of_singleton.
      split; [intros [?|?]; done|by left].
    + intros pid' Hpid. apply list_lookup_alter_ne. congruence.
  - unfold exec, stopStream. run_monad. rewrite Hreg.
    unfold tracking, getStreamLogs, durableStatus.
    destruct (streams w !! streamId) as [s|]; simpl; [|done].
    destruct (bool_decide (status s = "live")); simpl; [|done].
    by rewrite lookup_alter_ne by done.
Qed.

Lemma stopStream_other_streams_witness :
  tracking "s1" (exec (stopStream "s2") twoStreams) = tracking "s1" twoStreams.
Proof.
  refine (proj1 (stopStream_other_streams "s2" "s1" twoStreams _)).
  discriminate.
Defined.

(** ** The exit listener *)





(** X4.  An exit that is not a manual stop, not a SIGSEGV, and has exit
    code 0 or none, schedules nothing and counts no retry; the registry entry
    is removed, and the row is set to "offline" exactly when the stream was
    registered. *)
Theorem clean_exit_goes_offline streamId code signal w :
  streamId ∉ manuallyStoppingStreams w →
  cleanExit code signal →
  let w' := exec (onExit streamId code signal) w in
  timers w' = timers w ∧ procs w' = procs w ∧
  streamRetryCount w' = streamRetryCount w ∧
  activeStreams w' = delete streamId (activeStreams w) ∧
  streams w' = (if isStreamActive streamId w
                then alter (with_status "offline") streamId (streams w)
                else streams w).
Proof.
  intros Hman [Hsig Hcode]. cbv zeta. unfold onExit, isStreamActive. run_monad.
  rewrite bool_decide_eq_false_2 by done. simpl.
  rewrite bool_decide_eq_false_2 by done. simpl.
  destruct Hcode as [-> | ->]; simpl;
    by destruct (bool_decide (is_Some (activeStreams w !! streamId))).
Qed.

Lemma clean_exit_goes_offline_witness :
  durableStatus "s2" (exec (onExit "s2" (Some 0) None) twoStreams) = Some "offline".
Proof.
  destruct (clean_exit_goes_offline "s2" (Some 0) None twoStreams) as (_ & _ & _ & _ & Hs).
  - vm_compute. set_solver.
  - split; [discriminate|by right].
  - unfold durableStatus. rewrite Hs. vm_compute. reflexivity.
Defined.

Lemma handleStreamCrash_registry streamId reason w :
  activeStreams (exec (handleStreamCrash streamId reason) w) = activeStreams w.
Proof.
  unfold handleStreamCrash, calculateResumePosition. run_monad.
  repeat (case_match; simpl in *; simplify_eq); done.
Qed.

Lemma handleStreamError_registry streamId code signal w :
  activeStreams (exec (handleStreamError streamId code signal) w) = activeStreams w.
Proof.
  unfold handleStreamError, calculateResumePosition. run_monad.
  repeat (case_match; simpl in *; simplify_eq); done.
Qed.

Lemma onExit_registry streamId code signal w :
  activeStreams (exec (onExit streamId code signal) w) = delete streamId (activeStreams w).
Proof.
  pose proof (handleStreamCrash_registry streamId "SIGSEGV") as Hc.
  pose proof (handleStreamError_registry streamId) as He.
  unfold exec in Hc, He.
  unfold onExit. run_monad.
  destruct (bool_decide (streamId ∈ manuallyStoppingStreams w)); simpl.
  { by destruct (bool_decide (is_Some (activeStreams w !! streamId))). }
  destruct (bool_decide (signal = Some "SIGSEGV")); simpl.
  { by rewrite Hc. }
  destruct code as [c|]; simpl.
  - destruct (negb (c =? 0)); simpl; [by rewrite He|].
    by destruct (bool_decide (is_Some (activeStreams w !! streamId))).
  - by destruct (bool_decide (is_Some (activeStreams w !! streamId))).
Qed.

(** X5.  Whatever the exit code, the signal and the manual-stop flag, the
    exit listener removes the stream's registry entry and touches no other
    entry, even when the entry belongs to a later process of the stream. *)
Theorem exit_always_unregisters streamId code signal w :
  let w' := exec (onExit streamId code signal) w in
  activeStreams w' !! streamId = None ∧
  ∀ other, other ≠ streamId → activeStreams w' !! other = activeStreams w !! other.
Proof.
  cbv zeta. rewrite onExit_registry. split; [apply lookup_delete_eq|].
  intros other Hne. by apply lookup_delete_ne.
Qed.

(** ** Starting *)

(** X6.  The start routine never throws: a missing video record or media
    file, which [buildFFmpegArgs] raises as an exception, reaches the caller
    as a result value. *)
Theorem startStream_never_throws streamId resumePosition w :
  ∃ r, result (startStream streamId resumePosition) w = Returned r.
Proof.
  destruct (startStream_outcome streamId resumePosition w)
    as [_ [(e & -> & _) | (o & adv & -> & _)]]; eauto.
Qed.



Lemma startStream_startable_fields streamId resumePosition s v w :
  streams w !! streamId = Some s → videos w !! video_id s = Some v →
  relativeVideoPath (filepath v) ∈ disk w →
  let w' := exec (startStream streamId resumePosition) w in
  procs w' = procs w ++
    [mkProc streamId
       (mkOptions (relativeVideoPath (filepath v)) (or_zero resumePosition)
          (loop_video s) (use_advanced_settings s)) true []] ∧
  activeStreams w' = <[streamId := length (procs w)]> (activeStreams w) ∧
  streamStartTimes w' = <[streamId := clock w]> (streamStartTimes w) ∧
  streams w' = alter (with_status "live") streamId (streams w) ∧
  clock w' = clock w ∧
  (positive resumePosition = true →
     streamVideoPositions w' = <[streamId := or_zero resumePosition]> (streamVideoPositions w) ∧
     streamBasePositions w' = <[streamId := or_zero resumePosition]> (streamBasePositions w)).
Proof.
  intros Hs Hv Hd. cbv zeta. unfold startStream, buildFFmpegArgs. run_monad.
  destruct (truthy resumePosition) eqn:Htruthy; simpl; rewrite Hs; simpl; rewrite Hv; simpl;
    rewrite bool_decide_eq_true_2 by done; simpl;
    repeat (case_match; simpl in *; simplify_eq); done.
Qed.

(** X8.  After a start whose stream row, video row and media file exist,
    the registry maps the stream to the process just spawned, which runs and
    was given [resumePosition || 0]; the start time is now, the elapsed time
    reads 0, the row reads "live", and a positive resume position has become
    both the video and the base position. *)
Theorem started_stream_is_registered streamId resumePosition w :
  startable streamId w →
  let w' := exec (startStream streamId resumePosition) w in
  let pid := length (procs w) in
  activeStreams w' !! streamId = Some pid ∧
  (∃ p, procs w' !! pid = Some p ∧ p_stream p = streamId ∧ p_running p = true ∧
        opt_resumePosition (p_options p) = or_zero resumePosition) ∧
  getStreamStartTime streamId w' = Some (clock w) ∧
  getStreamElapsedTime streamId w' = 0 ∧
  durableStatus streamId w' = Some "live" ∧
  (positive resumePosition = true →
     streamVideoPositions w' !! streamId = resumePosition ∧
     streamBasePositions w' !! streamId = resumePosition).
Proof.
  intros (s & v & Hs & Hv & Hd). cbv zeta.
  destruct (startStream_startable_fields streamId resumePosition s v w Hs Hv Hd)
    as (Hp & Hreg & Hst & Hstr & Hclock & Hpos).
  unfold getStreamStartTime, getStreamElapsedTime, durableStatus.
  rewrite Hp, Hreg, Hst, Hstr, Hclock, !lookup_insert_eq, lookup_alter_eq, Hs, Z.sub_diag.
  repeat split; try done.
  - eexists. split; [by apply list_lookup_middle|done].
  - destruct (Hpos H) as [-> _]. rewrite lookup_insert_eq.
    destruct resumePosition; simpl in *; done.
  - destruct (Hpos H) as [_ ->]. rewrite lookup_insert_eq.
    destruct resumePosition; simpl in *; done.
Qed.

Lemma started_stream_is_registered_witness :
  activeStreams (exec (startStream "s1" None) (boot "s1")) !! "s1" = Some 0%nat.
Proof.
  refine (proj1 (started_stream_is_registered "s1" None (boot "s1") _)).
  exists (mkStream "v1" "u1" "offline" None false false), (mkVideo "/uploads/v1.mp4").
  vm_compute. repeat split; reflexivity.
Defined.

(** ** Timers *)

Lemma stopStream_timers streamId w : timers (exec (stopStream streamId) w) = timers w.
Proof.
  unfold stopStream, cleanupStreamData. run_monad.
  repeat (case_match; simpl in *; simplify_eq); done.
Qed.

Lemma runCallback_timers cb w : timers (exec (runCallback cb) w) = timers w.
Proof.
  destruct (isRetry cb) eqn:Hretry.
  { by destruct (runCallback_outcome cb w Hretry). }
  destruct cb as [| |streamId pos]; try done.
  unfold runCallback. run_monad.
  destruct (startStream streamId (Some pos) w) as [r w1] eqn:Hst.
  destruct (startStream_some_outcome _ _ _ _ _ Hst) as [Ht _].
  by destruct r as [[]|]; simpl.
Qed.

(** X9.  Only process exits and health checks queue timers: a start
    request, a stop request, a process error and process output leave the
    timer queue as it is, and a firing timer removes itself and queues
    nothing, also when the restart it attempts fails. *)
Theorem only_exits_and_health_checks_schedule w t e :
  schedules e = false →
  timers (step w (t, e)) =
  match e with
  | EvTimer n => delete n (timers w)
  | _ => timers w
  end.
Proof.
  intros Hsched. destruct e as [id r|id|pid c sg|pid txt|pid txt|pid txt|n|id]; try done.
  - unfold step, dispatch, exec, bind. simpl.
    destruct (startStream_outcome id r (set_clock t w)) as [Ht _].
    unfold exec in Ht. by destruct (startStream id r (set_clock t w)) as [[?|?] ?].
  - unfold step, dispatch, exec, bind. simpl.
    pose proof (stopStream_timers id (set_clock t w)) as Ht.
    unfold exec in Ht. by destruct (stopStream id (set_clock t w)) as [[?|?] ?].
  - unfold step, dispatch, on_process, onError. run_monad.
    repeat (case_match; simpl in *; simplify_eq); done.
  - unfold step, dispatch, on_process, onStdout. run_monad.
    repeat (case_match; simpl in *; simplify_eq); done.
  - unfold step, dispatch, on_process, onStderr. run_monad.
    repeat (case_match; simpl in *; simplify_eq); done.
  - pose proof (λ tm, runCallback_timers (t_callback tm)
                        (set_timers (delete n) (set_clock t w))) as Hcb.
    unfold step, dispatch. unfold exec in *. unfold bind, gets, modify, ret. simpl.
    destruct (timers w !! n) as [tm|] eqn:Hn; simpl.
    + apply Hcb.
    + symmetry. clear Hsched Hcb. revert n Hn.
      induction (timers w) as [|x l IH]; intros [|n] Hn; simpl in *; try done.
      f_equal. by apply IH.
Qed.

Lemma only_exits_and_health_checks_schedule_witness :
  timers (step firstErrorExit (13000, EvStop "s1")) = timers firstErrorExit.
Proof.
  apply (only_exits_and_health_checks_schedule firstErrorExit 13000 (EvStop "s1")).
  reflexivity.
Defined.

(** X10.  When a retry timer fires for a stream whose row exists but whose
    video record or media file is missing, the restart fails and the row is
    forced to "offline"; nothing is spawned, registered or rescheduled. *)
Theorem failed_restart_forces_offline cb s w :
  isRetry cb = true →
  streams w !! callbackStream cb = Some s →
  videos w !! video_id s = None ∨
    (∃ v, videos w !! video_id s = Some v ∧ relativeVideoPath (filepath v) ∉ disk w) →
  let w' := exec (runCallback cb) w in
  durableStatus (callbackStream cb) w' = Some "offline" ∧
  procs w' = procs w ∧ activeStreams w' = activeStreams w ∧ timers w' = timers w.
Proof.
  intros Hretry Hs Hfail. cbv zeta.
  assert (∃ error, ∀ w0,
    streams w0 = streams w → videos w0 = videos w → disk w0 = disk w →
    ∃ w1, startStream (callbackStream cb) (Some (callbackPosition cb)) w0 =
            (Returned (StartFailed error), w1) ∧
          streams w1 = streams w0 ∧ procs w1 = procs w0 ∧
          activeStreams w1 = activeStreams w0 ∧ timers w1 = timers w0)
    as [error Hstart].
  { destruct Hfail as [Hv | (v & Hv & Hd)].
    - exists (err_VideoRecordMissing (video_id s)).
      intros w0 E1 E2 E3. eexists. split.
      + apply (startStream_video_missing _ _ s); congruence.
      + simpl. by destruct (negb _).
    - exists err_VideoFileMissing.
      intros w0 E1 E2 E3. eexists. split.
      + apply (startStream_file_missing _ _ s v); congruence.
      + simpl. by destruct (negb _). }
  unfold durableStatus, exec.
  destruct cb as [id pos | id pos rc | id pos]; [| |done];
    simpl in Hs, Hstart; unfold callbackStream.
  - destruct (Hstart w) as (w1 & Hst & E1 & E2 & E3 & E4); try done.
    assert (Heq : runCallback (CrashRestart id pos) w =
                  (Returned tt, set_streams (alter (with_status "offline") id) w1)).
    { unfold runCallback. unfold try_catch, bind at 1, Stream_findById, gets. simpl.
      rewrite Hs. unfold bind. by rewrite Hst. }
    rewrite Heq. simpl. by rewrite E1, E2, E3, E4, lookup_alter_eq, Hs.
  - destruct (Hstart (addStreamLog id (MsgAttempting (rc + 1)) w))
      as (w1 & Hst & E1 & E2 & E3 & E4); try done.
    assert (Heq : runCallback (ErrorRestart id pos rc) w =
                  (Returned tt,
                   set_streams (alter (with_status "offline") id)
                     (addStreamLog id (MsgRestartFailed error) w1))).
    { unfold runCallback. unfold try_catch, bind at 1, Stream_findById, gets. simpl.
      rewrite Hs. unfold bind at 1, log at 1, modify at 1. unfold bind. by rewrite Hst. }
    rewrite Heq. simpl. by rewrite E1, E2, E3, E4; simpl; rewrite lookup_alter_eq, Hs.
Qed.

Lemma failed_restart_forces_offline_witness :
  durableStatus "s1" (exec (runCallback (CrashRestart "s1" 40)) videoMissing) = Some "offline".
Proof.
  refine (proj1 (failed_restart_forces_offline (CrashRestart "s1" 40)
                   (mkStream "v9" "u1" "live" None false false) videoMissing _ _ _)).
  - reflexivity.
  - vm_compute. reflexivity.
  - left. vm_compute. reflexivity.
Defined.

(** ** Health check of the service *)

(** X11.  The service's health check schedules a recovery exactly for a
    stream whose row reads "live", that has no registered process, and whose
    retry count is below the maximum: then one restart is queued five seconds
    out at the computed resume position, and the retry count is not raised.
    In every other case it returns false and changes nothing. *)
Theorem checkStreamHealth_recovers_only_orphans streamId w :
  (needsRecovery streamId w →
     let w' := exec (checkStreamHealth streamId) w in
     result (checkStreamHealth streamId) w = Returned true ∧
     timers w' = timers w ++
       [mkTimer 5000%Q
          (HealthRestart streamId
             (spec_computeResumePosition (streamBasePositions w !! streamId)
                (streamStartTimes w !! streamId) (clock w)))] ∧
     streamRetryCount w' = streamRetryCount w ∧
     procs w' = procs w ∧ streams w' = streams w ∧
     activeStreams w' = activeStreams w) ∧
  (¬ needsRecovery streamId w →
     checkStreamHealth streamId w = (Returned false, w)).
Proof.
  unfold needsRecovery, retryCountOf. split.
  - intros ((s & Hs & Hlive) & Hreg & Hrc). cbv zeta.
    apply Z.ltb_lt in Hrc.
    unfold checkStreamHealth, calculateResumePosition, spec_computeResumePosition.
    run_monad. rewrite Hs. simpl. rewrite Hreg, Hrc.
    rewrite bool_decide_eq_true_2 by done. simpl.
    by destruct (streamStartTimes w !! streamId).
  - intros Hno. unfold checkStreamHealth. run_monad.
    destruct (streams w !! streamId) as [s|] eqn:Hs; simpl; [|done].
    destruct (bool_decide (status s = "live")) eqn:Hlive; simpl; [|done].
    destruct (bool_decide (is_Some (activeStreams w !! streamId))) eqn:Hreg; simpl; [done|].
    destruct (default 0 (streamRetryCount w !! streamId) <? MAX_RETRY_ATTEMPTS) eqn:Hrc;
      simpl; [|done].
    exfalso. apply Hno. apply bool_decide_eq_true in Hlive.
    apply bool_decide_eq_false in Hreg. apply Z.ltb_lt in Hrc.
    split; [eauto|]. split; [|done].
    destruct (activeStreams w !! streamId); [|done]. exfalso. eauto.
Qed.

Lemma checkStreamHealth_recovers_only_orphans_witness :
  result (checkStreamHealth "s1") firstErrorExit = Returned true ∧
  checkStreamHealth "s1" twoStreams = (Returned false, twoStreams).
Proof.
  split.
  - refine (proj1 (proj1 (checkStreamHealth_recovers_only_orphans "s1" firstErrorExit) _)).
    split; [|split].
    + exists (mkStream "v1" "u1" "live" None false false). by vm_compute.
    + by vm_compute.
    + by vm_compute.
  - refine (proj2 (checkStreamHealth_recovers_only_orphans "s1" twoStreams) _).
    intros (_ & Hreg & _). vm_compute in Hreg. discriminate.
Defined.

(** ** Positions *)

(** X12.  For a stream whose start time is not in the future, the computed
    resume position is the base position plus the elapsed-time getter; it is
    stored as the video position, the base position is unchanged, and the
    video position is then at least the base position. *)
Theorem resume_position_is_recorded streamId startedAt w :
  streamStartTimes w !! streamId = Some startedAt →
  startedAt ≤ clock w →
  let w' := exec (calculateResumePosition streamId) w in
  result (calculateResumePosition streamId) w =
    Returned (getStreamBasePosition streamId w + getStreamElapsedTime streamId w) ∧
  getStreamVideoPosition streamId w' =
    getStreamBasePosition streamId w + getStreamElapsedTime streamId w ∧
  getStreamBasePosition streamId w' = getStreamBasePosition streamId w ∧
  getStreamBasePosition streamId w' ≤ getStreamVideoPosition streamId w'.
Proof.
  intros Hs Hle. cbv zeta.
  unfold exec, result, getStreamBasePosition, getStreamElapsedTime, getStreamVideoPosition.
  rewrite (calculateResumePosition_running _ startedAt) by done. simpl.
  rewrite Hs, lookup_insert_eq. simpl.
  assert (0 ≤ (clock w - startedAt) / 1000) by (apply Z.div_pos; lia).
  rewrite Z.max_r by done. repeat split; try done. lia.
Qed.

Lemma resume_position_is_recorded_witness :
  getStreamVideoPosition "s2" (exec (calculateResumePosition "s2") (set_clock 31000 twoStreams))
  = 130.
Proof.
  destruct (resume_position_is_recorded "s2" 1000 (set_clock 31000 twoStreams))
    as (_ & Hv & _).
  - by vm_compute.
  - by vm_compute.
  - rewrite Hv. by vm_compute.
Defined.

(** ** Bounds reported by the status getter *)

(** X13.  On every run of the event loop from a state within bounds, the
    status getter reports a retry count of at most [MAX_RETRY_ATTEMPTS] and
    a log count of at most [MAX_LOG_LINES], for every stream. *)
Theorem status_within_bounds trace streamId w :
  retryCountsBounded w → logsBounded w →
  let st := getStreamStatus streamId (run w trace) in
  st_retryCount st ≤ MAX_RETRY_ATTEMPTS ∧ (st_logCount st ≤ MAX_LOG_LINES)%nat.
Proof.
  intros Hrc Hlog. simpl.
  pose proof (retryCountsBounded_run trace w Hrc streamId) as Hrc'.
  pose proof (logsBounded_run trace w Hlog streamId) as Hlog'.
  destruct (streamRetryCount (run w trace) !! streamId) as [n|]; simpl.
  - split; [by apply Hrc'|].
    destruct (streamLogs (run w trace) !! streamId) as [l|]; simpl; [by apply Hlog'|].
    unfold MAX_LOG_LINES. lia.
  - split; [unfold MAX_RETRY_ATTEMPTS; lia|].
    destruct (streamLogs (run w trace) !! streamId) as [l|]; simpl; [by apply Hlog'|].
    unfold MAX_LOG_LINES. lia.
Qed.

Lemma status_within_bounds_witness :
  st_retryCount (getStreamStatus "s1" (failingAtOnce 4)) ≤ MAX_RETRY_ATTEMPTS.
Proof.
  refine (proj1 (status_within_bounds
    ((0, EvStart "s1" None) :: crashCycles 0 0 0 (replicate 4 quickFailure))
    "s1" (boot "s1") _ _)).
  - intros id n Hn. by vm_compute in Hn.
  - intros id l Hl. by vm_compute in Hl.
Defined.

(** ** The registry only names running processes *)






Lemma stopStream_registry_cases streamId w :
  let w' := exec (stopStream streamId) w in
  ((∃ pid, procs w' = alter (signalled "SIGTERM") pid (procs w)) ∨ procs w' = procs w) ∧
  activeStreams w' = delete streamId (activeStreams w).
Proof.
  cbv zeta. destruct (activeStreams w !! streamId) as [pid|] eqn:Hreg.
  - unfold exec. rewrite (stopStream_registered_eq _ pid) by done. simpl. eauto.
  - rewrite delete_id by done. unfold stopStream. run_monad. rewrite Hreg.
    repeat (case_match; simpl in *; simplify_eq); eauto.
Qed.









(** * Properties of the invocation builder *)

Section BuilderFacts.
Import FFmpegConfig.

Variable doubled : string → string.

Lemma pretty_positive_no_dash (r : Z) (s : string) : 0 < r → pretty r ≠ String "-" s.
Proof.
  intros Hr. destruct r as [|p|p]; try lia.
  unfold pretty, pretty_Z, pretty, pretty_positive, pretty, pretty_N.
  case_decide; [done|]. by apply (pretty_N_go_ne_dash (N.pos p) "" s).
Qed.

Lemma pretty_positive_eqb_dash (r : Z) (s : string) :
  0 < r → String.eqb (pretty r) (String "-" s) = false.
Proof. intros Hr. by apply String.eqb_neq, pretty_positive_no_dash. Qed.

(** X15.  Whatever the options, the argument list names the video as the
    input (the value of the first [-i]), ends in the RTMP address, and has 36
    entries plus 2 for a positive resume position plus 32 for advanced
    settings. *)
Theorem builder_input_and_destination videoPath rtmpUrl o :
  let args := buildFFmpegArgs doubled videoPath rtmpUrl o in
  valueOf "-i" args = Some videoPath ∧
  last args = Some rtmpUrl ∧
  length args =
    (36 + (if (0 <? default 0 (resumePosition o))%Z then 2 else 0)
        + (if default false (useAdvancedSettings o) then 32 else 0))%nat.
Proof.
  cbv zeta. unfold buildFFmpegArgs.
  destruct (0 <? default 0 (resumePosition o)) eqn:Hr;
    destruct (default false (loopVideo o));
    destruct (default false (useAdvancedSettings o)); simpl.
  all: repeat split; try done.
  all: by rewrite pretty_positive_eqb_dash by by apply Z.ltb_lt.
Qed.



End BuilderFacts.

(** * Properties of the health monitor *)

Section MonitorFacts.
Import HealthMonitor.

Lemma status_elapsed streamId w :
  st_elapsedTime (getStreamStatus streamId w) = getStreamElapsedTime streamId w.
Proof.
  unfold getStreamStatus, getStreamElapsedTime. simpl.
  by destruct (streamStartTimes w !! streamId).
Qed.

Lemma stalled_decide streamId w :
  stalled streamId w ↔
  st_isActive (getStreamStatus streamId w) = true ∧
  (if HEALTH_CHECK_TIMEOUT / 1000 <? st_elapsedTime (getStreamStatus streamId w) then
     match st_lastLog (getStreamStatus streamId w) with
     | Some lastLog => HEALTH_CHECK_TIMEOUT <? clock w - timestamp lastLog
     | None => false
     end
   else false) = true.
Proof.
  rewrite status_elapsed. unfold stalled, getStreamLogs. simpl.
  change (HEALTH_CHECK_TIMEOUT / 1000) with 30.
  rewrite bool_decide_eq_true.
  destruct (30 <? getStreamElapsedTime streamId w) eqn:He.
  - apply Z.ltb_lt in He.
    destruct (last (default [] (streamLogs w !! streamId))) as [l|].
    + rewrite Z.ltb_lt. split.
      * intros (Hreg & _ & l' & [= <-] & Hage). done.
      * intros [Hreg Hage]. eauto.
    + split; [intros (_ & _ & l' & [=] & _)|intros [_ [=]]].
  - apply Z.ltb_ge in He. split; [intros (_ & Hlt & _); lia|intros [_ [=]]].
Qed.

Lemma checkStreamHealth_unstalled streamId m :
  ¬ stalled streamId (service m) →
  let m' := checkStreamHealth streamId m in
  service m' = service m ∧ pending m' = pending m ∧ emitted m' = emitted m ∧
  healthChecks m' !! streamId =
    (if isStreamActive streamId (service m)
     then Some (mkHealth 0 (clock (service m)) true) else None) ∧
  (∀ other, other ≠ streamId → healthChecks m' !! other = healthChecks m !! other).
Proof.
  intros Hns. cbv zeta. rewrite stalled_decide in Hns.
  unfold checkStreamHealth, isStreamActive.
  change (st_isActive (getStreamStatus streamId (service m)))
    with (bool_decide (is_Some (activeStreams (service m) !! streamId))) in *.
  destruct (bool_decide (is_Some (activeStreams (service m) !! streamId))); simpl.
  - match goal with
    | |- context [if ?b then handleStalledStream _ _ else _] => destruct b eqn:Hb
    end.
    { exfalso. by apply Hns. }
    unfold updateHealthStatus. simpl. rewrite lookup_alter_eq, lookup_insert_eq. simpl.
    repeat split; try done.
    intros other Hne. by rewrite lookup_alter_ne, lookup_insert_ne.
  - rewrite lookup_delete_eq. repeat split; try done.
    intros other Hne. by rewrite lookup_delete_ne.
Qed.

(** X17.  A round of health checks over streams none of which is stalled
    changes nothing in the service, queues no recovery and emits nothing:
    each checked stream that is registered gets a healthy record stamped
    now, each checked stream that is not registered loses its record, and
    the records of streams outside the round stay. *)
Theorem quiet_round_changes_nothing ids m :
  (∀ streamId, streamId ∈ ids → ¬ stalled streamId (service m)) →
  let m' := checkAllStreams ids m in
  service m' = service m ∧ pending m' = pending m ∧ emitted m' = emitted m ∧
  ∀ streamId,
    healthChecks m' !! streamId =
    if bool_decide (streamId ∈ ids) then
      if isStreamActive streamId (service m)
      then Some (mkHealth 0 (clock (service m)) true) else None
    else healthChecks m !! streamId.
Proof.
  cbv zeta. unfold checkAllStreams. revert m.
  induction ids as [|x ids IH]; intros m Hquiet; simpl; [done|].
  destruct (checkStreamHealth_unstalled x m) as (Hs & Hp & He & Hx & Hother).
  { apply Hquiet. by left. }
  destruct (IH (checkStreamHealth x m)) as (IHs & IHp & IHe & IHh).
  { intros id Hid. rewrite Hs. apply Hquiet. by right. }
  rewrite IHs, IHp, IHe, Hs, Hp, He. repeat split; try done.
  intros id. rewrite IHh, Hs.
  destruct (decide (id ∈ ids)) as [Hin|Hnot].
  - rewrite !bool_decide_eq_true_2; [done|by right|done].
  - rewrite (bool_decide_eq_false_2 (id ∈ ids)) by done.
    destruct (decide (id = x)) as [->|Hne].
    + rewrite bool_decide_eq_true_2 by left. done.
    + rewrite bool_decide_eq_false_2; [by apply Hother|].
      intros Hin. apply elem_of_cons in Hin as [?|?]; done.
Qed.

Lemma quiet_round_changes_nothing_witness :
  service (checkAllStreams ["s1"; "s2"] (install twoStreams)) = twoStreams.
Proof.
  refine (proj1 (quiet_round_changes_nothing ["s1"; "s2"] (install twoStreams) _)).
  intros id Hid (_ & Hlt & _).
  apply elem_of_cons in Hid as [->|Hid]; [vm_compute in Hlt; discriminate|].
  apply elem_of_cons in Hid as [->|Hid]; [vm_compute in Hlt; discriminate|].
  by apply elem_of_nil in Hid.
Defined.

Lemma checkStreamHealth_stalled_eq streamId m :
  stalled streamId (service m) →
  checkStreamHealth streamId m =
  mkMonitor (exec (stopStream streamId) (service m))
    (delete streamId (healthChecks m))
    (pending m ++ [(2000, StalledRestart streamId (recoveryPosition streamId (service m)))])
    (emitted m).
Proof.
  intros Hst. pose proof Hst as [Hreg _]. apply stalled_decide in Hst as [Hact Hb].
  unfold checkStreamHealth. rewrite Hact, Hb. simpl.
  unfold handleStalledStream, service_stopStream, isStreamActive.
  by rewrite bool_decide_eq_true_2 by done.
Qed.

Lemma stopStream_unregisters streamId pid w :
  activeStreams w !! streamId = Some pid →
  procs (exec (stopStream streamId) w) = alter (signalled "SIGTERM") pid (procs w) ∧
  activeStreams (exec (stopStream streamId) w) = delete streamId (activeStreams w).
Proof.
  intros Hreg. unfold exec. by rewrite (stopStream_registered_eq _ pid).
Qed.

(** X18.  A health check of a stalled stream stops it: its process is sent
    SIGTERM, it leaves the registry, its health record is dropped, and one
    restart is queued two seconds ahead, at the video position if that is
    positive and at the elapsed time otherwise. *)
Theorem stalled_stream_is_stopped_and_requeued streamId pid m :
  stalled streamId (service m) →
  activeStreams (service m) !! streamId = Some pid →
  let m' := checkStreamHealth streamId m in
  service m' = exec (stopStream streamId) (service m) ∧
  pending m' = pending m ++
    [(2000, StalledRestart streamId (recoveryPosition streamId (service m)))] ∧
  healthChecks m' = delete streamId (healthChecks m) ∧
  isStreamActive streamId (service m') = false ∧
  procs (service m') = alter (signalled "SIGTERM") pid (procs (service m)).
Proof.
  intros Hst Hreg. cbv zeta. rewrite checkStreamHealth_stalled_eq by done. simpl.
  destruct (stopStream_unregisters streamId pid (service m) Hreg) as [Hp Ha].
  repeat split; try done.
  apply bool_decide_eq_false. rewrite Ha, lookup_delete_eq. by intros [? ?].
Qed.

Lemma stalled_stream_is_stopped_and_requeued_witness :
  pending (checkStreamHealth "s2" (mkMonitor (set_clock 40000 twoStreams) ∅ [] [])) =
  [(2000, StalledRestart "s2" 100)].
Proof.
  refine (proj1 (proj2 (stalled_stream_is_stopped_and_requeued "s2" 1%nat
    (mkMonitor (set_clock 40000 twoStreams) ∅ [] []) _ _))).
  - split; [|split].
    + vm_compute. by eexists.
    + vm_compute. reflexivity.
    + eexists. split; vm_compute; reflexivity.
  - vm_compute. reflexivity.
Defined.

Lemma last_push_bounded e l : last (push_bounded e l) = Some e.
Proof.
  unfold push_bounded. case_decide as Hlen; [|apply last_snoc].
  destruct l as [|x l]; [simpl in Hlen; unfold MAX_LOG_LINES in Hlen; lia|].
  simpl. apply last_snoc.
Qed.

Lemma startStream_startable_logs streamId resumePosition s v w :
  streams w !! streamId = Some s → videos w !! video_id s = Some v →
  relativeVideoPath (filepath v) ∈ disk w →
  let w' := exec (startStream streamId resumePosition) w in
  (∃ msg, last (getStreamLogs streamId w') = Some (mkLog (clock w) msg)) ∧
  (positive resumePosition = false → streamVideoPositions w !! streamId = None →
     streamVideoPositions w' !! streamId = Some 0).
Proof.
  intros Hs Hv Hd. cbv zeta. unfold startStream, buildFFmpegArgs. run_monad.
  destruct (truthy resumePosition) eqn:Htruthy; simpl; rewrite Hs; simpl; rewrite Hv; simpl;
    rewrite bool_decide_eq_true_2 by done; simpl;
    repeat (case_match; simpl in *; simplify_eq).
  all: split;
    [eexists; unfold getStreamLogs; simpl; rewrite lookup_insert_eq; simpl;
     by rewrite last_push_bounded|].
  all: intros; simplify_eq; simpl; rewrite ?lookup_insert_eq; try done.
  all: match goal with
       | H : bool_decide _ = true, H' : _ !! _ = None |- _ =>
         apply bool_decide_eq_true in H; rewrite H' in H; by destruct H
       | H : negb (bool_decide _) = false, H' : _ !! _ = None |- _ =>
         apply negb_false_iff, bool_decide_eq_true in H; rewrite H' in H; by destruct H
       end.
Qed.

(** X19.  A stream that was started and has logged nothing since is taken
    for stalled by the first health check that comes 31 seconds or more
    after the start: the check stops it and queues a restart, at the resume
    position it was started with if that was positive, and at the elapsed
    seconds if it was started afresh. *)
Theorem silent_stream_recovery streamId resumePosition w0 t1 m :
  startable streamId w0 →
  31000 ≤ t1 - clock w0 →
  service m = set_clock t1 (exec (startStream streamId resumePosition) w0) →
  let m' := checkStreamHealth streamId m in
  isStreamActive streamId (service m') = false ∧
  ∃ pos, pending m' = pending m ++ [(2000, StalledRestart streamId pos)] ∧
    (positive resumePosition = true → pos = or_zero resumePosition) ∧
    (positive resumePosition = false → streamVideoPositions w0 !! streamId = None →
       pos = (t1 - clock w0) / 1000).
Proof.
  intros (s & v & Hs & Hv & Hd) Hlate Hm. cbv zeta.
  destruct (startStream_startable_fields streamId resumePosition s v w0 Hs Hv Hd)
    as (_ & Hreg & Hstart & _ & _ & Hpos).
  destruct (startStream_startable_logs streamId resumePosition s v w0 Hs Hv Hd)
    as ((msg & Hlast) & Hinit).
  set (w1 := exec (startStream streamId resumePosition) w0) in *.
  assert (Helapsed : getStreamElapsedTime streamId (service m) = (t1 - clock w0) / 1000).
  { rewrite Hm. unfold getStreamElapsedTime, getStreamStartTime. simpl.
    by rewrite Hstart, lookup_insert_eq. }
  assert (31 ≤ (t1 - clock w0) / 1000) by (apply Z.div_le_lower_bound; lia).
  assert (Hstalled : stalled streamId (service m)).
  { split; [rewrite Hm; simpl; rewrite Hreg, lookup_insert_eq; eauto|].
    split; [lia|]. exists (mkLog (clock w0) msg). rewrite Hm. split; [done|].
    simpl. unfold HEALTH_CHECK_TIMEOUT. lia. }
  rewrite checkStreamHealth_stalled_eq by done. simpl.
  destruct (stopStream_unregisters streamId (length (procs w0)) (service m)) as [_ Ha].
  { rewrite Hm. simpl. by rewrite Hreg, lookup_insert_eq. }
  split.
  { apply bool_decide_eq_false. rewrite Ha, lookup_delete_eq. by intros [? ?]. }
  eexists. split; [done|].
  unfold recoveryPosition, getStreamVideoPosition. rewrite Helapsed, Hm. simpl. split.
  - intros Hp. destruct (Hpos Hp) as [-> _]. rewrite lookup_insert_eq.
    destruct resumePosition as [r|]; [|done]. simpl in Hp |- *. by rewrite Hp.
  - intros Hp Hnone. by rewrite (Hinit Hp Hnone).
Qed.

Lemma silent_stream_recovery_witness :
  pending (checkStreamHealth "s1"
    (install (set_clock 31000 (exec (startStream "s1" None) (boot "s1"))))) =
  [(2000, StalledRestart "s1" 31)].
Proof.
  destruct (silent_stream_recovery "s1" None (boot "s1") 31000
    (install (set_clock 31000 (exec (startStream "s1" None) (boot "s1")))))
    as (_ & pos & Hpending & _ & Hpos).
  - exists (mkStream "v1" "u1" "offline" None false false), (mkVideo "/uploads/v1.mp4").
    vm_compute. repeat split; reflexivity.
  - vm_compute. discriminate.
  - reflexivity.
  - rewrite Hpending, Hpos; reflexivity.
Defined.

(** ** Health records *)

Lemma mapConsistent_delete streamId hm :
  mapConsistent hm → mapConsistent (delete streamId hm).
Proof. intros H id h Hh. apply lookup_delete_Some in Hh as [_ Hh]. by apply (H id). Qed.

Lemma mapConsistent_insert streamId h hm :
  0 ≤ consecutiveFailures h → (isHealthy h = true ↔ consecutiveFailures h = 0) →
  mapConsistent hm → mapConsistent (<[streamId := h]> hm).
Proof.
  intros H1 H2 H id h' Hh.
  apply lookup_insert_Some in Hh as [[_ <-] | [_ Hh]]; [done|by apply (H id)].
Qed.

Lemma mapConsistent_touch streamId now hm :
  mapConsistent hm →
  mapConsistent (alter (λ h, mkHealth (consecutiveFailures h) now (isHealthy h)) streamId hm).
Proof.
  intros H id h Hh. destruct (decide (streamId = id)) as [->|Hne].
  - rewrite lookup_alter_eq in Hh. destruct (hm !! id) as [h0|] eqn:Hh0; [|done].
    simpl in Hh. injection Hh as <-. simpl. by apply (H id).
  - rewrite lookup_alter_ne in Hh by done. by apply (H id).
Qed.

Lemma service_stopStream_records streamId m :
  healthChecks (service_stopStream streamId m) = healthChecks m ∨
  healthChecks (service_stopStream streamId m) = delete streamId (healthChecks m).
Proof. unfold service_stopStream. destruct (isStreamActive _ _); simpl; auto. Qed.

Lemma recordsConsistent_stop streamId m :
  recordsConsistent m → recordsConsistent (service_stopStream streamId m).
Proof.
  intros H. unfold recordsConsistent.
  destruct (service_stopStream_records streamId m) as [-> | ->]; [done|].
  by apply mapConsistent_delete.
Qed.

Lemma recordsConsistent_report streamId healthy m :
  recordsConsistent m → recordsConsistent (updateHealthStatus streamId healthy m).
Proof.
  intros H. unfold updateHealthStatus.
  set (hc := default _ (healthChecks m !! streamId)).
  assert (Hhc : 0 ≤ consecutiveFailures hc).
  { subst hc. destruct (healthChecks m !! streamId) as [h|] eqn:Hh; simpl; [|done].
    by apply (H streamId h). }
  apply (mapConsistent_touch streamId (clock (service m))).
  destruct healthy.
  - simpl. by apply mapConsistent_insert.
  - assert (Hins : recordsConsistent
        (set_healthChecks
           <[streamId := mkHealth (consecutiveFailures hc + 1) (lastCheck hc) false]> m)).
    { apply mapConsistent_insert; simpl; [lia| |done]. split; [done|lia]. }
    destruct (MAX_CONSECUTIVE_FAILURES <=? consecutiveFailures hc + 1); [|done].
    unfold handleUnhealthyStream. simpl. by apply recordsConsistent_stop.
Qed.

Lemma recordsConsistent_check streamId m :
  recordsConsistent m → recordsConsistent (checkStreamHealth streamId m).
Proof.
  intros H. unfold checkStreamHealth.
  destruct (negb _); [by apply mapConsistent_delete|].
  match goal with
  | |- context [if ?b then handleStalledStream _ _ else _] => destruct b
  end.
  - unfold handleStalledStream. simpl. by apply recordsConsistent_stop.
  - by apply recordsConsistent_report.
Qed.

Lemma recordsConsistent_recover r m :
  recordsConsistent m → recordsConsistent (runRecovery r m).
Proof.
  intros H. destruct r as [id pos|id pos]; unfold runRecovery;
    destruct (result _ _) as [[? ?|?]|?]; simpl; try done.
  by apply mapConsistent_delete.
Qed.

(** X20.  On every run of the monitor (health checks, reports, recovery
    timers and service events in any order), a health record is healthy
    exactly when it counts no consecutive failures, and no count is
    negative. *)
Theorem health_records_stay_consistent trace m :
  recordsConsistent m → recordsConsistent (monitorRun m trace).
Proof.
  revert m. induction trace as [|[t e] trace IH]; intros m Hm; [done|].
  apply IH. clear IH. unfold monitorStep. simpl.
  assert (Hm0 : recordsConsistent (set_service (set_clock t) m)) by done.
  destruct e as [id|id b|n|e].
  - by apply recordsConsistent_check.
  - by apply recordsConsistent_report.
  - simpl. destruct (pending m !! n) as [r|]; [|done].
    by apply recordsConsistent_recover.
  - destruct e; try done. by apply recordsConsistent_stop.
Qed.

Lemma health_records_stay_consistent_witness :
  recordsConsistent
    (monitorRun (install (boot "s1"))
       [(0, MService (EvStart "s1" None)); (1000, MReport "s1" false);
        (2000, MCheck "s1")]).
Proof.
  apply (health_records_stay_consistent _ (install (boot "s1"))).
  intros id h Hh. simpl in Hh. by rewrite lookup_empty in Hh.
Defined.

Lemma report_failure_below streamId m :
  let h := default (mkHealth 0 (clock (service m)) true) (healthChecks m !! streamId) in
  consecutiveFailures h + 1 < MAX_CONSECUTIVE_FAILURES →
  updateHealthStatus streamId false m =
  set_healthChecks
    <[streamId := mkHealth (consecutiveFailures h + 1) (clock (service m)) false]> m.
Proof.
  cbv zeta. intros Hlt. apply Z.leb_gt in Hlt.
  unfold updateHealthStatus. rewrite Hlt. unfold set_healthChecks. simpl.
  by rewrite alter_insert_eq.
Qed.

Lemma report_failure_reached streamId m :
  let h := default (mkHealth 0 (clock (service m)) true) (healthChecks m !! streamId) in
  MAX_CONSECUTIVE_FAILURES ≤ consecutiveFailures h + 1 →
  is_Some (activeStreams (service m) !! streamId) →
  updateHealthStatus streamId false m =
  mkMonitor (exec (stopStream streamId) (service m))
    (delete streamId (healthChecks m))
    (pending m ++ [(5000, UnhealthyRestart streamId (recoveryPosition streamId (service m)))])
    (emitted m).
Proof.
  cbv zeta. intros Hge Hreg. apply Z.leb_le in Hge.
  unfold updateHealthStatus. rewrite Hge.
  unfold handleUnhealthyStream, service_stopStream, isStreamActive. simpl.
  rewrite bool_decide_eq_true_2 by done.
  unfold set_healthChecks, set_pending, cleanupStream, set_healthChecks. simpl.
  f_equal. rewrite delete_insert_eq.
  apply map_eq. intros id. destruct (decide (streamId = id)) as [->|Hne].
  - by rewrite lookup_alter_eq, lookup_delete_eq.
  - by rewrite lookup_alter_ne.
Qed.

(** X21.  Of three failed reports in a row for a registered stream that had
    no health record, the first two only count (the record then reads two
    failures, unhealthy) and touch neither the service nor the recovery
    queue; the third stops the stream, queues one restart five seconds
    ahead and drops the record. *)
Theorem third_failure_triggers_recovery streamId pid m :
  activeStreams (service m) !! streamId = Some pid →
  healthChecks m !! streamId = None →
  let m2 := updateHealthStatus streamId false (updateHealthStatus streamId false m) in
  let m3 := updateHealthStatus streamId false m2 in
  service m2 = service m ∧ pending m2 = pending m ∧
  healthChecks m2 !! streamId = Some (mkHealth 2 (clock (service m)) false) ∧
  service m3 = exec (stopStream streamId) (service m) ∧
  pending m3 = pending m ++
    [(5000, UnhealthyRestart streamId (recoveryPosition streamId (service m)))] ∧
  healthChecks m3 !! streamId = None.
Proof.
  intros Hreg Hnone. cbv zeta.
  set (now := clock (service m)).
  set (m1 := set_healthChecks <[streamId := mkHealth 1 now false]> m).
  set (m2 := set_healthChecks <[streamId := mkHealth 2 now false]> m1).
  assert (H1 : updateHealthStatus streamId false m = m1).
  { rewrite report_failure_below; rewrite Hnone; done. }
  assert (H2 : updateHealthStatus streamId false m1 = m2).
  { rewrite report_failure_below; subst m1; simpl; rewrite lookup_insert_eq; done. }
  assert (H3 : updateHealthStatus streamId false m2 =
               mkMonitor (exec (stopStream streamId) (service m2))
                 (delete streamId (healthChecks m2))
                 (pending m2 ++
                  [(5000, UnhealthyRestart streamId (recoveryPosition streamId (service m2)))])
                 (emitted m2)).
  { apply report_failure_reached; subst m2 m1; simpl.
    - by rewrite lookup_insert_eq.
    - rewrite Hreg. eauto. }
  rewrite H1, H2, H3. subst m2 m1. simpl.
  by rewrite lookup_insert_eq, lookup_delete_eq.
Qed.

Lemma third_failure_triggers_recovery_witness :
  pending (updateHealthStatus "s2" false (updateHealthStatus "s2" false
            (updateHealthStatus "s2" false (install twoStreams)))) =
  [(5000, UnhealthyRestart "s2" 100)].
Proof.
  refine (proj1 (proj2 (proj2 (proj2 (proj2
    (third_failure_triggers_recovery "s2" 1%nat (install twoStreams) _ _)))))).
  - vm_compute. reflexivity.
  - reflexivity.
Defined.


End MonitorFacts.

(** * Shutdown *)

Section ShutdownFacts.
Import HealthMonitor.

Lemma service_stopStream_service streamId m :
  service (service_stopStream streamId m) = exec (stopStream streamId) (service m).
Proof. unfold service_stopStream. by destruct (isStreamActive _ _). Qed.

Lemma stopStream_keeps_terminated streamId pid w :
  terminated pid w → terminated pid (exec (stopStream streamId) w).
Proof.
  intros (p & Hp & Hsig). unfold terminated.
  destruct (stopStream_registry_cases streamId w) as [[[pid' ->] | ->] _]; [|by exists p].
  destruct (decide (pid' = pid)) as [->|Hne].
  - exists (signalled "SIGTERM" p). rewrite list_lookup_alter_eq, Hp. split; [done|].
    simpl. apply elem_of_app. by left.
  - exists p. by rewrite list_lookup_alter_ne.
Qed.

Lemma shutdown_registry ids m :
  activeStreams (service (shutdownServices ids m)) =
  fold_left (λ reg id, delete id reg) ids (activeStreams (service m)).
Proof.
  unfold shutdownServices. revert m. induction ids as [|id ids IH]; intros m; [done|].
  simpl. rewrite IH, service_stopStream_service.
  by destruct (stopStream_registry_cases id (service m)) as [_ ->].
Qed.

Lemma fold_delete_lookup (reg : gmap string nat) ids id :
  fold_left (λ reg id, delete id reg) ids reg !! id =
  if bool_decide (id ∈ ids) then None else reg !! id.
Proof.
  revert reg. induction ids as [|x ids IH]; intros reg; simpl; [done|].
  rewrite IH. destruct (decide (x = id)) as [->|Hne].
  - rewrite lookup_delete_eq. rewrite (bool_decide_eq_true_2 (id ∈ id :: ids)) by left.
    by destruct (bool_decide _).
  - rewrite lookup_delete_ne by done.
    apply (f_equal (λ b : bool, if b then None else reg !! id)).
    apply bool_decide_ext. rewrite elem_of_cons. split; [by right|].
    by intros [->|?].
Qed.

Lemma shutdown_keeps_terminated ids pid m :
  terminated pid (service m) → terminated pid (service (shutdownServices ids m)).
Proof.
  unfold shutdownServices. revert m. induction ids as [|id ids IH]; intros m H; [done|].
  simpl. apply IH. rewrite service_stopStream_service. by apply stopStream_keeps_terminated.
Qed.

Lemma shutdown_terminates ids streamId pid m :
  streamId ∈ ids →
  activeStreams (service m) !! streamId = Some pid →
  (pid < length (procs (service m)))%nat →
  terminated pid (service (shutdownServices ids m)).
Proof.
  unfold shutdownServices. revert m.
  induction ids as [|id ids IH]; intros m Hin Hreg Hlt; [by apply elem_of_nil in Hin|].
  simpl. destruct (decide (id = streamId)) as [->|Hne].
  - apply (shutdown_keeps_terminated ids). rewrite service_stopStream_service.
    destruct (stopStream_unregisters streamId pid (service m) Hreg) as [Hp _].
    apply lookup_lt_is_Some_2 in Hlt as [p Hp0]. unfold terminated.
    exists (signalled "SIGTERM" p). rewrite Hp, list_lookup_alter_eq, Hp0.
    split; [done|]. simpl. apply elem_of_app. right. by left.
  - apply elem_of_cons in Hin as [->|Hin]; [done|].
    rewrite <- (lookup_delete_ne (activeStreams (service m)) id streamId) in Hreg by done.
    destruct (stopStream_registry_cases id (service m)) as [Hp Ha].
    apply IH; [done| |]; rewrite service_stopStream_service.
    + by rewrite Ha.
    + destruct Hp as [[pid' ->] | ->]; [|done]. by rewrite length_alter.
Qed.

(** X23.  When the list walked by [shutdownServices] holds every registered
    stream and the registry names only existing processes, then after the
    shutdown the registry is empty and every process that was registered
    has been sent SIGTERM. *)
Theorem shutdown_stops_every_registered_stream ids m :
  (∀ streamId, is_Some (activeStreams (service m) !! streamId) → streamId ∈ ids) →
  registrySound (service m) →
  let m' := shutdownServices ids m in
  activeStreams (service m') = ∅ ∧
  ∀ streamId pid, activeStreams (service m) !! streamId = Some pid →
    terminated pid (service m').
Proof.
  intros Hcover Hsound. cbv zeta. split.
  - apply map_eq. intros id. rewrite shutdown_registry, fold_delete_lookup, lookup_empty.
    case_bool_decide as Hin; [done|].
    destruct (activeStreams (service m) !! id) eqn:Hreg; [|done].
    exfalso. apply Hin, Hcover. rewrite Hreg. eauto.
  - intros id pid Hreg. apply (shutdown_terminates ids id); [|done|].
    + apply Hcover. rewrite Hreg. eauto.
    + destruct (Hsound id pid Hreg) as (p & Hp & _). by apply lookup_lt_Some in Hp.
Qed.

Lemma twoStreams_registry : activeStreams twoStreams = {[ "s1" := 0%nat; "s2" := 1%nat ]}.
Proof. vm_compute. reflexivity. Qed.

Lemma shutdown_stops_every_registered_stream_witness :
  activeStreams (service (shutdownServices ["s1"; "s2"] (install twoStreams))) = ∅.
Proof.
  refine (proj1 (shutdown_stops_every_registered_stream ["s1"; "s2"]
                   (install twoStreams) _ _)).
  - intros id [pid Hid]. simpl in Hid. rewrite twoStreams_registry in Hid.
    apply lookup_insert_Some in Hid as [[<- _]|[_ Hid]]; [by left|].
    apply lookup_singleton_Some in Hid as [<- _]. right. by left.
  - intros id pid Hid. simpl in Hid. rewrite twoStreams_registry in Hid.
    apply lookup_insert_Some in Hid as [[<- <-]|[_ Hid]].
    + eexists. split; [vm_compute; reflexivity|done].
    + apply lookup_singleton_Some in Hid as [<- <-].
      eexists. split; [vm_compute; reflexivity|done].
Defined.

End ShutdownFacts.

(** * Reconciliation of durable status and registry *)

Section SyncFacts.

Lemma forEach_returns ids body :
  (∀ id, returns (body id)) → returns (forEach ids body).
Proof.
  intros Hbody. induction ids as [|id ids IH]; intros w; [done|].
  simpl. unfold exec, bind. rewrite (Hbody id w). simpl. by rewrite (IH _).
Qed.

Lemma exec_forEach_cons id ids body w :
  returns (body id) →
  exec (forEach (id :: ids) body) w = exec (forEach ids body) (exec (body id) w).
Proof. intros Hb. simpl. unfold exec at 1, bind. by rewrite (Hb w). Qed.

Lemma alter_status_is_Some st streamId other (rows : gmap string StreamRow) :
  is_Some (alter (with_status st) streamId rows !! other) ↔ is_Some (rows !! other).
Proof.
  destruct (decide (streamId = other)) as [->|Hne].
  - rewrite lookup_alter_eq. by rewrite fmap_is_Some.
  - by rewrite lookup_alter_ne.
Qed.

Lemma syncLiveStream_returns streamId : returns (syncLiveStream streamId).
Proof.
  intros w. unfold syncLiveStream, checkStreamHealth, calculateResumePosition. run_monad.
  repeat (case_match; simpl in *; simplify_eq); done.
Qed.

Lemma syncLiveStream_frame streamId w :
  let w' := exec (syncLiveStream streamId) w in
  activeStreams w' = activeStreams w ∧
  ∀ other, is_Some (streams w' !! other) ↔ is_Some (streams w !! other).
Proof.
  cbv zeta. unfold syncLiveStream, checkStreamHealth, calculateResumePosition. run_monad.
  repeat (case_match; simpl in *; simplify_eq); split; try done;
    intros other; apply alter_status_is_Some.
Qed.

Lemma syncActiveStream_returns streamId : returns (syncActiveStream streamId).
Proof.
  intros w. unfold syncActiveStream. run_monad.
  repeat (case_match; simpl in *; simplify_eq); done.
Qed.

Lemma syncActiveStream_effect streamId w :
  let w' := exec (syncActiveStream streamId) w in
  (∀ other, is_Some (activeStreams w' !! other) → is_Some (activeStreams w !! other)) ∧
  (is_Some (activeStreams w' !! streamId) → durableStatus streamId w' = Some "live") ∧
  (∀ other, other ≠ streamId → durableStatus other w' = durableStatus other w) ∧
  (∀ other, is_Some (streams w' !! other) ↔ is_Some (streams w !! other)).
Proof.
  cbv zeta. unfold durableStatus, syncActiveStream. run_monad.
  destruct (streams w !! streamId) as [s|] eqn:Hs; simpl.
  - case_bool_decide as Hlive; simpl.
    + repeat split; try done.
      * intros _. by rewrite lookup_alter_eq, Hs.
      * intros other Hne. by rewrite lookup_alter_ne.
      * apply alter_status_is_Some.
      * apply alter_status_is_Some.
    + repeat split; try done. intros _. rewrite Hs. simpl. f_equal.
      destruct (decide (status s = "live")); [done|]. by destruct Hlive.
  - destruct (activeStreams w !! streamId) as [pid|] eqn:Hreg; simpl.
    + repeat split; try done.
      * intros other Ho. apply lookup_delete_is_Some in Ho. by destruct Ho.
      * rewrite lookup_delete_eq. by intros [? ?].
    + repeat split; try done.
      * intros other Ho. apply lookup_delete_is_Some in Ho. by destruct Ho.
      * rewrite lookup_delete_eq. by intros [? ?].
Qed.

Lemma syncLive_loop ids w :
  let w' := exec (forEach ids syncLiveStream) w in
  activeStreams w' = activeStreams w ∧
  ∀ other, is_Some (streams w' !! other) ↔ is_Some (streams w !! other).
Proof.
  cbv zeta. revert w. induction ids as [|id ids IH]; intros w; [done|].
  rewrite exec_forEach_cons by apply syncLiveStream_returns.
  destruct (IH (exec (syncLiveStream id) w)) as [-> Hrows].
  destruct (syncLiveStream_frame id w) as [-> Hrows'].
  split; [done|]. intros other. by rewrite Hrows.
Qed.

Lemma syncActive_loop ids w :
  let w' := exec (forEach ids syncActiveStream) w in
  (∀ id, is_Some (activeStreams w' !! id) → is_Some (activeStreams w !! id)) ∧
  (∀ id, is_Some (activeStreams w' !! id) →
         id ∈ ids ∨ durableStatus id w = Some "live" →
         durableStatus id w' = Some "live") ∧
  (∀ id, is_Some (streams w' !! id) ↔ is_Some (streams w !! id)).
Proof.
  cbv zeta. revert w. induction ids as [|x ids IH]; intros w.
  { repeat split; try done. intros id _ [Hin|Hlive]; [by apply elem_of_nil in Hin|done]. }
  rewrite exec_forEach_cons by apply syncActiveStream_returns.
  destruct (syncActiveStream_effect x w) as (Hreg1 & Hlive1 & Hother1 & Hrows1).
  destruct (IH (exec (syncActiveStream x) w)) as (Hreg & Hlive & Hrows).
  split; [|split].
  - intros id Hid. by apply Hreg1, Hreg.
  - intros id Hid Hcase. apply Hlive; [done|].
    destruct (decide (id = x)) as [->|Hne].
    + right. by apply Hlive1, Hreg.
    + destruct Hcase as [Hin|Hl].
      * apply elem_of_cons in Hin as [->|Hin]; [done|by left].
      * right. by rewrite Hother1.
  - intros id. by rewrite Hrows.
Qed.

Lemma exec_syncStreamStatuses liveStreams activeStreamIds w :
  exec (syncStreamStatuses liveStreams activeStreamIds) w =
  exec (forEach activeStreamIds syncActiveStream)
    (exec (forEach liveStreams syncLiveStream) w).
Proof.
  unfold syncStreamStatuses, exec, try_catch, bind.
  rewrite (forEach_returns liveStreams syncLiveStream syncLiveStream_returns w). simpl.
  by rewrite (forEach_returns activeStreamIds syncActiveStream syncActiveStream_returns _).
Qed.

(** X24.  When the key list walked by the second loop of
    [syncStreamStatuses] holds every registered stream, then after the sync
    every stream still registered was registered before and has a row that
    reads "live", and no stream without a row is registered; the sync never
    registers a stream. *)
Theorem sync_leaves_registry_live liveStreams activeStreamIds w :
  (∀ id, is_Some (activeStreams w !! id) → id ∈ activeStreamIds) →
  let w' := exec (syncStreamStatuses liveStreams activeStreamIds) w in
  (∀ id, is_Some (activeStreams w' !! id) →
         is_Some (activeStreams w !! id) ∧ durableStatus id w' = Some "live") ∧
  (∀ id, streams w !! id = None → activeStreams w' !! id = None).
Proof.
  intros Hcover. cbv zeta.
  rewrite exec_syncStreamStatuses.
  destruct (syncLive_loop liveStreams w) as [Hreg1 Hrows1].
  set (w1 := exec (forEach liveStreams syncLiveStream) w) in *.
  destruct (syncActive_loop activeStreamIds w1) as (Hreg & Hlive & Hrows).
  set (w2 := exec (forEach activeStreamIds syncActiveStream) w1) in *.
  assert (Hback : ∀ id, is_Some (activeStreams w2 !! id) → is_Some (activeStreams w !! id)).
  { intros id Hid. apply Hreg in Hid. by rewrite <- Hreg1. }
  split.
  - intros id Hid. split; [by apply Hback|].
    apply Hlive; [done|]. left. by apply Hcover, Hback.
  - intros id Hnone. apply eq_None_not_Some. intros Hid.
    pose proof (Hlive id Hid (or_introl (Hcover id (Hback id Hid)))) as Hl.
    unfold durableStatus in Hl.
    assert (Hsome : is_Some (streams w2 !! id)).
    { destruct (streams w2 !! id); [eauto|done]. }
    apply Hrows, Hrows1 in Hsome. rewrite Hnone in Hsome. by destruct Hsome.
Qed.

Lemma drifted_registry : activeStreams drifted = {[ "s1" := 0%nat; "s2" := 1%nat ]}.
Proof. vm_compute. reflexivity. Qed.

Lemma sync_leaves_registry_live_witness :
  activeStreams (exec (syncStreamStatuses ["s3"] ["s1"; "s2"]) drifted) !! "s2" = None.
Proof.
  refine (proj2 (sync_leaves_registry_live ["s3"] ["s1"; "s2"] drifted _) "s2" _).
  - intros id [pid Hid]. rewrite drifted_registry in Hid.
    apply lookup_insert_Some in Hid as [[<- _]|[_ Hid]]; [by left|].
    apply lookup_singleton_Some in Hid as [<- _]. right. by left.
  - vm_compute. reflexivity.
Defined.


Lemma syncLiveStream_orphan x w0 :
  activeStreams w0 !! x = None →
  let w1 := exec (syncLiveStream x) w0 in
  (needsRecovery x w0 → recoveryQueued x w1 ∧ streams w1 = streams w0) ∧
  (¬ needsRecovery x w0 → streams w1 = alter (with_status "offline") x (streams w0)).
Proof.
  intros Hreg. cbv zeta.
  unfold syncLiveStream, checkStreamHealth, calculateResumePosition, needsRecovery,
    retryCountOf, recoveryQueued.
  run_monad. rewrite Hreg. simpl.
  destruct (streams w0 !! x) as [s|] eqn:Hs; simpl; rewrite ?Hreg; simpl.
  - destruct (bool_decide (status s = "live")) eqn:Hlive; simpl.
    + destruct (default 0 (streamRetryCount w0 !! x) <? MAX_RETRY_ATTEMPTS) eqn:Hrc; simpl.
      * split; [|intros Hno; exfalso; apply Hno].
        -- intros _. destruct (streamStartTimes w0 !! x); simpl;
             (split; [eexists; apply elem_of_app; right; by left|done]).
        -- apply bool_decide_eq_true in Hlive. apply Z.ltb_lt in Hrc. eauto.
      * split; [|done]. intros (_ & _ & Hlt). apply Z.ltb_ge in Hrc. lia.
    + split; [|done]. intros ((s' & [= <-] & Hl) & _).
      apply bool_decide_eq_false in Hlive. done.
  - split; [|done]. by intros ((s' & [=] & _) & _).
Qed.

Lemma syncLiveStream_keeps x w0 :
  let w1 := exec (syncLiveStream x) w0 in
  activeStreams w1 = activeStreams w0 ∧
  streamRetryCount w1 = streamRetryCount w0 ∧
  (∀ tm, tm ∈ timers w0 → tm ∈ timers w1) ∧
  (∀ id, id ≠ x → streams w1 !! id = streams w0 !! id).
Proof.
  cbv zeta. unfold syncLiveStream, checkStreamHealth, calculateResumePosition. run_monad.
  repeat (case_match; simpl in *; simplify_eq); repeat split; try done.
  all: try (intros id Hne; by rewrite lookup_alter_ne).
  all: intros tm Htm; apply elem_of_app; by left.
Qed.

Lemma needsRecovery_ext streamId w w' :
  streams w' !! streamId = streams w !! streamId →
  activeStreams w' = activeStreams w →
  streamRetryCount w' = streamRetryCount w →
  needsRecovery streamId w' ↔ needsRecovery streamId w.
Proof. intros Hs Ha Hr. unfold needsRecovery, retryCountOf. by rewrite Hs, Ha, Hr. Qed.

Lemma syncLive_loop_orphan ids streamId w0 :
  activeStreams w0 !! streamId = None →
  let w1 := exec (forEach ids syncLiveStream) w0 in
  (∀ tm, tm ∈ timers w0 → tm ∈ timers w1) ∧
  (streamId ∉ ids → streams w1 !! streamId = streams w0 !! streamId) ∧
  (streamId ∈ ids →
     (needsRecovery streamId w0 →
        recoveryQueued streamId w1 ∧ durableStatus streamId w1 = Some "live") ∧
     (¬ needsRecovery streamId w0 →
        durableStatus streamId w1 =
        match durableStatus streamId w0 with Some _ => Some "offline" | None => None end)).
Proof.
  cbv zeta. revert w0. induction ids as [|x ids IH]; intros w0 Hreg.
  { split; [done|split; [done|]]. intros Hin. by apply elem_of_nil in Hin. }
  rewrite exec_forEach_cons by apply syncLiveStream_returns.
  destruct (syncLiveStream_keeps x w0) as (Ha & Hr & Ht & Hs).
  set (wx := exec (syncLiveStream x) w0) in *.
  assert (Hregx : activeStreams wx !! streamId = None) by by rewrite Ha.
  destruct (IH wx Hregx) as (IHt & IHout & IHin).
  split; [|split].
  - intros tm Htm. by apply IHt, Ht.
  - intros Hnot. apply not_elem_of_cons in Hnot as [Hne Hnot].
    rewrite (IHout Hnot). by apply Hs.
  - intros Hin. destruct (decide (x = streamId)) as [->|Hne].
    + destruct (syncLiveStream_orphan streamId w0 Hreg) as [Hyes Hno]. fold wx in Hyes, Hno.
      destruct (decide (streamId ∈ ids)) as [Hrest|Hrest].
      * destruct (IHin Hrest) as [IHyes IHno]. split.
        -- intros Hneeds. destruct (Hyes Hneeds) as [_ Hsame]. apply IHyes.
           apply (needsRecovery_ext streamId w0 wx); [by rewrite Hsame|done|done|done].
        -- intros Hneeds. rewrite IHno.
           ++ unfold durableStatus. rewrite (Hno Hneeds), lookup_alter_eq.
              by destruct (streams w0 !! streamId).
           ++ intros ((s & Hrow & Hl) & _). rewrite (Hno Hneeds), lookup_alter_eq in Hrow.
              destruct (streams w0 !! streamId) as [s0|]; simpl in Hrow; [|done].
              injection Hrow as <-. simpl in Hl. discriminate.
      * split.
        -- intros Hneeds. destruct (Hyes Hneeds) as [[pos Hq] Hsame]. split.
           ++ exists pos. by apply IHt.
           ++ unfold durableStatus. rewrite (IHout Hrest), Hsame.
              destruct Hneeds as ((s & Hrow & Hl) & _). rewrite Hrow. simpl.
              by rewrite Hl.
        -- intros Hneeds. unfold durableStatus.
           rewrite (IHout Hrest), (Hno Hneeds), lookup_alter_eq.
           by destruct (streams w0 !! streamId).
    + apply elem_of_cons in Hin as [->|Hin]; [done|].
      destruct (IHin Hin) as [IHyes IHno].
      assert (Hext : needsRecovery streamId wx ↔ needsRecovery streamId w0).
      { apply needsRecovery_ext; [apply Hs|done|done]. congruence. }
      assert (Hst : durableStatus streamId wx = durableStatus streamId w0).
      { unfold durableStatus. rewrite Hs; [done|congruence]. }
      rewrite <- Hst. split; intros Hneeds; [apply IHyes|apply IHno]; by rewrite Hext.
Qed.

Lemma syncActiveStream_keeps x w :
  let w' := exec (syncActiveStream x) w in
  timers w' = timers w ∧
  ∀ id, id ≠ x → streams w' !! id = streams w !! id.
Proof.
  cbv zeta. unfold syncActiveStream. run_monad.
  repeat (case_match; simpl in *; simplify_eq); split; try done.
  intros id Hne. by rewrite lookup_alter_ne.
Qed.

Lemma syncActive_loop_other ids streamId w :
  streamId ∉ ids →
  let w' := exec (forEach ids syncActiveStream) w in
  timers w' = timers w ∧ streams w' !! streamId = streams w !! streamId.
Proof.
  cbv zeta. revert w. induction ids as [|x ids IH]; intros w Hnot; [done|].
  apply not_elem_of_cons in Hnot as [Hne Hnot].
  rewrite exec_forEach_cons by apply syncActiveStream_returns.
  destruct (syncActiveStream_keeps x w) as [Ht Hs].
  destruct (IH (exec (syncActiveStream x) w) Hnot) as [-> ->].
  split; [done|]. by apply Hs.
Qed.

(** X25.  The sync settles every stream it was handed as live that has no
    registered process, given that the key list of the second loop holds
    only registered streams: when the service's health check finds the
    stream in need of recovery, a restart is queued five seconds ahead and
    the row keeps reading "live"; otherwise an existing row reads "offline"
    afterwards. *)
Theorem sync_settles_orphans liveStreams activeStreamIds streamId w :
  streamId ∈ liveStreams →
  activeStreams w !! streamId = None →
  (∀ id, id ∈ activeStreamIds → is_Some (activeStreams w !! id)) →
  let w' := exec (syncStreamStatuses liveStreams activeStreamIds) w in
  (needsRecovery streamId w →
     recoveryQueued streamId w' ∧ durableStatus streamId w' = Some "live") ∧
  (¬ needsRecovery streamId w →
     durableStatus streamId w' =
     match durableStatus streamId w with Some _ => Some "offline" | None => None end).
Proof.
  intros Hin Hreg Hkeys. cbv zeta. rewrite exec_syncStreamStatuses.
  destruct (syncLive_loop_orphan liveStreams streamId w Hreg) as (_ & _ & Hsettled).
  destruct (Hsettled Hin) as [Hyes Hno].
  assert (Hnot : streamId ∉ activeStreamIds).
  { intros Hk. apply Hkeys in Hk as [pid Hk]. congruence. }
  destruct (syncActive_loop_other activeStreamIds streamId
              (exec (forEach liveStreams syncLiveStream) w) Hnot) as [Ht Hs].
  unfold recoveryQueued, durableStatus in *. rewrite Ht, Hs. by split.
Qed.

Lemma sync_settles_orphans_witness :
  durableStatus "s3" (exec (syncStreamStatuses ["s3"] ["s1"; "s2"]) drifted) = Some "live".
Proof.
  refine (proj2 (proj1 (sync_settles_orphans ["s3"] ["s1"; "s2"] "s3" drifted _ _ _) _)).
  - by left.
  - vm_compute. reflexivity.
  - intros id Hid. rewrite drifted_registry.
    apply elem_of_cons in Hid as [->|Hid]; [by eexists|].
    apply elem_of_cons in Hid as [->|Hid]; [by eexists|].
    by apply elem_of_nil in Hid.
  - split; [|split].
    + eexists. split; [vm_compute; reflexivity|done].
    + vm_compute. reflexivity.
    + vm_compute. reflexivity.
Defined.

End SyncFacts.
